(** * vecs.client: collection lifecycle and dimension resolution

    A shallow embedding of [src/vecs/client.py] (class [Client]) and the
    properties of its dimension-resolution protocol.

    The Python methods run against a PostgreSQL store through a SQLAlchemy
    engine.  Here the store is the part of the catalog that the SQL text of
    the client reads and writes ([pg_class], [pg_attribute], the schemas and
    the extensions), the engine is its pool of idle connections, and every
    method is a computation in a state-and-exception monad over both.  A log
    of the statements and calls that cross the client's boundary is kept, so
    that "no create was issued" is a statement about a run. *)

From Stdlib Require Import ZArith String Ascii List.
From stdpp Require Import base gmap sets list strings.

Local Open Scope string_scope.
Local Open Scope list_scope.
Local Open Scope Z_scope.

(** ** Exceptions *)

(** The classes of the exceptions that the client raises or lets through.
    [Exception] is Python's builtin; [CollectionNotFound] is imported from
    [vecs.exc]; [CollectionAlreadyExists] is the class named by the
    docstrings of [create_collection] and [get_or_create_collection];
    [DBAPIError] stands for an error reported by the store. *)
Inductive exc_class : Type :=
  | Exception
  | CollectionNotFound
  | CollectionAlreadyExists
  | StopIteration
  | DBAPIError.

Global Instance exc_class_eq_dec : EqDecision exc_class.
Proof. solve_decision. Defined.

Record exn : Type := mk_exn { kind : exc_class; message : string }.

Global Instance exn_eq_dec : EqDecision exn.
Proof. solve_decision. Defined.

(** ** Collections and adapters *)

(** Modelled from the spec: the class [Adapter] of [vecs.experimental.adapter]
    is not in the sources.  The client reads one attribute of it, its
    declared output dimension, absent when the adapter fixes no width. *)
Record Adapter : Type := mk_adapter { exported_dimension : option Z }.

Global Instance Adapter_eq_dec : EqDecision Adapter.
Proof. solve_decision. Defined.

(** The descriptor built by [Collection(name, dimension, client, adapter)].
    There is one client in a run, so the back reference is left out. *)
Record Collection : Type := mk_collection {
  name : string;
  dimension : Z;
  adapter : option Adapter
}.

Global Instance Collection_eq_dec : EqDecision Collection.
Proof. solve_decision. Defined.

(** ** The store *)

(** A row of the catalog table [pg_class]; [relnamespace] is kept as the
    schema's name, which is what ['vecs'::regnamespace] is compared to. *)
Record pg_class_row : Type := mk_class {
  oid : N;
  relname : string;
  relnamespace : string;
  relkind : ascii
}.

(** A row of the catalog table [pg_attribute]; [atttypid] is kept as the
    name of the column's type. *)
Record pg_attribute_row : Type := mk_attribute {
  attrelid : N;
  attname : string;
  atttypid : string;
  atttypmod : Z
}.

Record Store : Type := mk_store {
  schemas : gset string;
  extensions : gset string;
  available_extensions : gset string;
  pg_class : list pg_class_row;
  pg_attribute : list pg_attribute_row
}.

(** The statements the client sends as SQL text. *)
Inductive statement : Type :=
  | create_schema_if_not_exists (schema : string)
  | create_extension_if_not_exists (extension : string)
  | select_collection (name : string).

(** ** The engine, the log and the world *)

Record Engine : Type := mk_engine {
  url : string;
  idle : nat
}.

Inductive event : Type :=
  | EConnect (url : string)
  | EDispose
  | EBegin
  | ECommit
  | ERollback
  | EExecute (q : statement)
  | ECreate (c : Collection)
  | EDrop (c : Collection)
  | EList.

Record World : Type := mk_world {
  engine : Engine;
  store : Store;
  log : list event
}.

Definition set_engine (e : Engine) (w : World) : World :=
  {| engine := e; store := store w; log := log w |}.

Definition set_store (st : Store) (w : World) : World :=
  {| engine := engine w; store := st; log := log w |}.

Definition add_log (ev : event) (w : World) : World :=
  {| engine := engine w; store := store w; log := log w ++ [ev] |}.

(** ** The monad of client methods *)

Inductive result (A : Type) : Type :=
  | Return (a : A)
  | Raise (e : exn).
Arguments Return {A} a.
Arguments Raise {A} e.

Definition M (A : Type) : Type := World → result A * World.

Global Instance M_ret : MRet M := λ A a w, (Return a, w).

Global Instance M_bind : MBind M := λ A B k m w,
  match m w with
  | (Return a, w') => k a w'
  | (Raise e, w') => (Raise e, w')
  end.

Global Instance M_fmap : FMap M := λ A B f m w,
  match m w with
  | (Return a, w') => (Return (f a), w')
  | (Raise e, w') => (Raise e, w')
  end.

Definition raise {A : Type} (e : exn) : M A := λ w, (Raise e, w).

Definition emit (ev : event) : M unit := λ w, (Return (), add_log ev w).

Definition get_store : M Store := λ w, (Return (store w), w).

Definition put_store (st : Store) : M unit := λ w, (Return (), set_store st w).

(** ** Sessions and statements *)

(** [create_engine(connection_string)]: an engine with an empty pool; no
    connection is opened until a session first needs one. *)
Definition create_engine (connection_string : string) : M unit := λ w,
  (Return (), set_engine {| url := connection_string; idle := 0 |} w).

(** [engine.dispose()]: the idle connections of the pool are closed; the
    engine itself stays in place. *)
Definition dispose : M unit := λ w,
  (Return (),
   add_log EDispose (set_engine {| url := url (engine w); idle := 0 |} w)).

(** A session takes an idle connection from the pool, or has the engine open
    one when the pool is empty. *)
Definition checkout : M unit := λ w,
  match idle (engine w) with
  | O => (Return (), add_log (EConnect (url (engine w))) w)
  | S n => (Return (), set_engine {| url := url (engine w); idle := n |} w)
  end.

Definition checkin (w : World) : World :=
  set_engine {| url := url (engine w); idle := S (idle (engine w)) |} w.

(** [with self.Session() as sess: body]: the connection goes back to the
    pool on every exit path. *)
Definition with_session {A : Type} (body : M A) : M A := λ w,
  let '(r, w') := body (snd (checkout w)) in (r, checkin w').

(** [with sess.begin(): body]: commit on normal exit, roll back what the
    body did to the store when it raises. *)
Definition sess_begin {A : Type} (body : M A) : M A := λ w,
  match body (add_log EBegin w) with
  | (Return a, w') => (Return a, add_log ECommit w')
  | (Raise e, w') => (Raise e, add_log ERollback (set_store (store w) w'))
  end.

(** A session used outside [sess.begin()] begins a transaction at its first
    statement, and closing the session rolls that transaction back. *)
Definition sess_autobegin {A : Type} (body : M A) : M A := λ w,
  let '(r, w') := body (add_log EBegin w) in
  (r, add_log ERollback (set_store (store w) w')).

(** The join and the conditions shared by the metadata queries: the table
    is an ordinary table ([relkind = 'r']) of schema [vecs], the column is
    the one named [vec], and the table's name does not start with ['_']. *)
Definition vec_column (pc : pg_class_row) (pa : pg_attribute_row) : bool :=
  (oid pc =? attrelid pa)%N
  && String.eqb (relnamespace pc) "vecs"
  && Ascii.eqb (relkind pc) "r"
  && String.eqb (attname pa) "vec"
  && negb (String.prefix "_" (relname pc)).

(** The query of [get_or_create_collection] and [get_collection]:
    [select relname, atttypmod from pg_class pc join pg_attribute pa on
    pc.oid = pa.attrelid where ... and pc.relname = :name]. *)
Definition collection_query (name : string) (st : Store) : list (string * Z) :=
  pc ← pg_class st;
  pa ← pg_attribute st;
  if vec_column pc pa && String.eqb (relname pc) name
  then [(relname pc, atttypmod pa)] else [].

Definition add_schema (s : string) (st : Store) : Store :=
  {| schemas := {[ s ]} ∪ schemas st;
     extensions := extensions st;
     available_extensions := available_extensions st;
     pg_class := pg_class st;
     pg_attribute := pg_attribute st |}.

Definition add_extension (e : string) (st : Store) : Store :=
  {| schemas := schemas st;
     extensions := {[ e ]} ∪ extensions st;
     available_extensions := available_extensions st;
     pg_class := pg_class st;
     pg_attribute := pg_attribute st |}.

(** [sess.execute(text(...))] with the store's answer. *)
Definition execute (q : statement) : M (list (string * Z)) :=
  emit (EExecute q);;
  st ← get_store;
  match q with
  | create_schema_if_not_exists s =>
      (if decide (s ∈ schemas st) then mret () else put_store (add_schema s st));;
      mret []
  | create_extension_if_not_exists e =>
      if decide (e ∈ extensions st) then mret []
      else if decide (e ∈ available_extensions st)
      then put_store (add_extension e st);; mret []
      else raise (mk_exn DBAPIError "extension is not available")
  | select_collection name => mret (collection_query name st)
  end.

(** [.fetchone()] *)
Definition fetchone {A : Type} (rows : list A) : option A := head rows.

(** ** The query surface of [Collection] *)

Definition table_named (name : string) (pc : pg_class_row) : bool :=
  String.eqb (relnamespace pc) "vecs"
  && Ascii.eqb (relkind pc) "r"
  && String.eqb (relname pc) name.

Definition table_exists (name : string) (st : Store) : bool :=
  existsb (table_named name) (pg_class st).

Definition fresh_oid (st : Store) : N :=
  N.succ (N.max (foldr N.max 0%N (oid <$> pg_class st))
                (foldr N.max 0%N (attrelid <$> pg_attribute st))).

Definition create_table (name : string) (dimension : Z) (st : Store) : Store :=
  {| schemas := schemas st;
     extensions := extensions st;
     available_extensions := available_extensions st;
     pg_class := pg_class st ++ [mk_class (fresh_oid st) name "vecs" "r"];
     pg_attribute := pg_attribute st ++ [mk_attribute (fresh_oid st) "vec" "vector" dimension] |}.

Definition drop_table (name : string) (st : Store) : Store :=
  {| schemas := schemas st;
     extensions := extensions st;
     available_extensions := available_extensions st;
     pg_class := filter (λ pc, table_named name pc = false) (pg_class st);
     pg_attribute :=
       filter (λ pa, existsb (λ pc, table_named name pc && (oid pc =? attrelid pa)%N)
                             (pg_class st) = false)
              (pg_attribute st) |}.

(** Modelled from the spec: [Collection._create] of [vecs.collection] is not
    in the sources.  The spec has it create the physical table with its
    vector column at the descriptor's dimension and return the descriptor,
    and fail with an already-exists error when the name already has a
    physical table.  The call is logged on entry. *)
Definition Collection_create (self : Collection) : M Collection :=
  emit (ECreate self);;
  with_session (
    st ← get_store;
    if table_exists (name self) st
    then raise (mk_exn CollectionAlreadyExists
                       "Collection with requested name already exists")
    else put_store (create_table (name self) (dimension self) st);; mret self).

(** Modelled from the spec: [Collection._drop] of [vecs.collection] is not
    in the sources.  The spec has it remove the named physical table with
    what depends on it, and fail with a not-found error when there is no
    such table.  The call is logged on entry. *)
Definition Collection_drop (self : Collection) : M Collection :=
  emit (EDrop self);;
  with_session (
    st ← get_store;
    if table_exists (name self) st
    then put_store (drop_table (name self) st);; mret self
    else raise (mk_exn CollectionNotFound
                       "No collection found with requested name")).

(** Modelled from the spec: [Collection._list_collections] of
    [vecs.collection] is not in the sources.  The spec has it return one
    descriptor for every physical table of the managed namespace that has a
    vector column and whose name does not start with the reserved prefix,
    the dimension being the column's width. *)
Definition Collection_list_collections : M (list Collection) :=
  emit EList;;
  with_session (
    st ← get_store;
    mret (pc ← pg_class st;
          pa ← pg_attribute st;
          if vec_column pc pa
          then [mk_collection (relname pc) (atttypmod pa) None] else [])).

(** ** The client *)

(** [Client.__init__] *)
Definition Client_init (connection_string : string) : M unit :=
  create_engine connection_string;;
  with_session (
    sess_begin (
      execute (create_schema_if_not_exists "vecs");;
      execute (create_extension_if_not_exists "vector");;
      mret ())).

(** The set built from the three sources, [None] left out. *)
Definition reported_dimensions
    (dimension collection_dimension : option Z) (adapter : option Adapter) : gset Z :=
  list_to_set
    (omap id [dimension; collection_dimension; adapter ≫= exported_dimension]).

(** Python's truth value of an [Optional[int]]. *)
Definition truthy (x : option Z) : bool :=
  match x with
  | Some d => negb (d =? 0)
  | None => false
  end.

(** [Client.get_or_create_collection] *)
Definition get_or_create_collection
    (name : string) (dimension : option Z) (adapter : option Adapter) : M Collection :=
  collection_dimension ← with_session (sess_autobegin (
    query_result ← fetchone <$> execute (select_collection name);
    mret (match query_result with
          | Some (_, collection_dimension) => Some collection_dimension
          | None => None
          end)));
  let reported_dimensions := reported_dimensions dimension collection_dimension adapter in
  if decide (size reported_dimensions = 0%nat) then
    raise (mk_exn Exception "One of dimension or adapter must provide a dimension")
  else if decide (1 < size reported_dimensions)%nat then
    raise (mk_exn Exception
             "Dimensions reported by adapter, dimension, and collection do not match")
  else
    match head (elements reported_dimensions) with
    | None => raise (mk_exn StopIteration EmptyString)
    | Some resolved_dimension =>
        let collection := mk_collection name resolved_dimension adapter in
        if truthy collection_dimension then mret collection
        else Collection_create collection
    end.

(** [Client.create_collection] *)
Definition create_collection (name : string) (dimension : Z) : M Collection :=
  Collection_create (mk_collection name dimension None).

(** [Client.get_collection] *)
Definition get_collection (name : string) : M Collection :=
  with_session (sess_autobegin (
    query_result ← fetchone <$> execute (select_collection name);
    match query_result with
    | None => raise (mk_exn CollectionNotFound "No collection found with requested name")
    | Some (name, dimension) => mret (mk_collection name dimension None)
    end)).

(** [Client.list_collections] *)
Definition list_collections : M (list Collection) :=
  Collection_list_collections.

(** [Client.delete_collection] *)
Definition delete_collection (name : string) : M unit :=
  Collection_drop (mk_collection name (-1) None);;
  mret ().

(** [Client.disconnect] *)
Definition disconnect : M unit := dispose.

(** [Client.__exit__] *)
Definition Client_exit : M unit := disconnect.

(** ** Runs on small stores *)

Definition empty_store : Store :=
  {| schemas := ∅; extensions := ∅; available_extensions := {[ "vector" ]};
     pg_class := []; pg_attribute := [] |}.

Definition world0 : World :=
  {| engine := {| url := EmptyString; idle := 0 |}; store := empty_store; log := [] |}.

(** The world left by [vecs.create_client] on a new database. *)
Definition fresh_world : World := snd (Client_init "postgresql://db" world0).

Definition run {A : Type} (m : M A) (w : World) : result A := fst (m w).
Definition exec {A : Type} (m : M A) (w : World) : World := snd (m w).

(** ** What a run leaves behind *)

(** The events that change the store: a create or a drop through the query
    surface, and the bootstrap's DDL. *)
Definition mutating (ev : event) : bool :=
  match ev with
  | ECreate _ | EDrop _ => true
  | EExecute (create_schema_if_not_exists _) => true
  | EExecute (create_extension_if_not_exists _) => true
  | _ => false
  end.

(** From [w] to [w'] the store is the same and nothing that changes it was
    issued. *)
Definition no_physical_mutation (w w' : World) : Prop :=
  store w' = store w
  ∧ ∃ evs, log w' = log w ++ evs ∧ Forall (λ ev, mutating ev = false) evs.

(** The width found by the metadata lookup, [None] when no row matches. *)
Definition existing_dimension (name : string) (st : Store) : option Z :=
  snd <$> fetchone (collection_query name st).

(** The three sources of a dimension, in the order of the source. *)
Definition dimension_sources
    (name : string) (dimension : option Z) (adapter : option Adapter) (st : Store)
    : list (option Z) :=
  [dimension; existing_dimension name st; adapter ≫= exported_dimension].

(** The world after the lookup's session. *)
Definition after_select (name : string) (w : World) : World :=
  checkin (add_log ERollback
             (add_log (EExecute (select_collection name))
                (add_log EBegin (snd (checkout w))))).

Definition conflict_error : exn :=
  mk_exn Exception "Dimensions reported by adapter, dimension, and collection do not match".

Definition configuration_error : exn :=
  mk_exn Exception "One of dimension or adapter must provide a dimension".

Definition not_found_error : exn :=
  mk_exn CollectionNotFound "No collection found with requested name".

Definition already_exists_error : exn :=
  mk_exn CollectionAlreadyExists "Collection with requested name already exists".

(** The part of [get_or_create_collection] after the lookup. *)
Definition resolve
    (name : string) (dimension collection_dimension : option Z)
    (adapter : option Adapter) : M Collection :=
  let rd := reported_dimensions dimension collection_dimension adapter in
  if decide (size rd = 0%nat) then raise configuration_error
  else if decide (1 < size rd)%nat then raise conflict_error
  else
    match head (elements rd) with
    | None => raise (mk_exn StopIteration EmptyString)
    | Some resolved_dimension =>
        let collection := mk_collection name resolved_dimension adapter in
        if truthy collection_dimension then mret collection
        else Collection_create collection
    end.

(** ** Stores and worlds of the examples, and the predicates of the statements *)

(** [physical_table st name d]: the catalog of [st] has an ordinary table of
    schema [vecs] whose name is [name] and does not start with ['_'], with a
    column [vec] of declared width [d]. *)
Definition physical_table (st : Store) (name : string) (d : Z) : Prop :=
  ∃ pc pa,
    pc ∈ pg_class st ∧ pa ∈ pg_attribute st
    ∧ oid pc = attrelid pa
    ∧ relnamespace pc = "vecs"
    ∧ relkind pc = "r"%char
    ∧ attname pa = "vec"
    ∧ String.prefix "_" (relname pc) = false
    ∧ relname pc = name
    ∧ atttypmod pa = d.

(** A table [_staging] with a [vec] column next to the collection [docs]:
    only [docs] is listed, and the lookup does not find [_staging]. *)
Definition store_with_internal : Store :=
  {| schemas := {[ "vecs" ]}; extensions := {[ "vector" ]};
     available_extensions := {[ "vector" ]};
     pg_class := [mk_class 1 "_staging" "vecs" "r"; mk_class 2 "docs" "vecs" "r"];
     pg_attribute := [mk_attribute 1 "vec" "vector" 8; mk_attribute 2 "vec" "vector" 384] |}.

(** A table [t] whose column [vec], of type [time(0)], has declared width 0. *)
Definition store_zero_width : Store :=
  {| schemas := {[ "vecs" ]}; extensions := {[ "vector" ]};
     available_extensions := {[ "vector" ]};
     pg_class := [mk_class 1 "t" "vecs" "r"];
     pg_attribute := [mk_attribute 1 "vec" "time" 0] |}.

Definition world_zero_width : World := set_store store_zero_width fresh_world.

(** The world after [get_or_create_collection("docs", dimension=384)] on a
    new database. *)
Definition world_docs : World :=
  exec (get_or_create_collection "docs" (Some 384) None) fresh_world.

(** ** The bootstrap, by its parts *)

Definition bootstrap_statements : list event :=
  [EBegin;
   EExecute (create_schema_if_not_exists "vecs");
   EExecute (create_extension_if_not_exists "vector")].

Definition extension_error : exn := mk_exn DBAPIError "extension is not available".

Definition bootstrap (s x : string) : M unit :=
  with_session (sess_begin (
    execute (create_schema_if_not_exists s);;
    execute (create_extension_if_not_exists x);;
    mret ())).

(** The constructor for any schema [s] and extension [x]; [Client_init] is
    the one for [vecs] and [vector]. *)
Definition Client_init_for (s x connection_string : string) : M unit :=
  create_engine connection_string;;
  bootstrap s x.

Ltac reduce_world :=
  cbn [fst snd store log engine idle url set_store set_engine add_log checkin
       schemas extensions available_extensions pg_class pg_attribute
       add_schema add_extension].

Ltac absorb_singleton :=
  first [ reflexivity
        | symmetry; apply subseteq_union_1_L; by apply singleton_subseteq_l ].

(** ** The client as a context manager *)

(** [Client.__enter__]: returns the client itself. *)
Definition Client_enter : M unit := mret ().

(** The body of a [with] block over the client: [__exit__] runs when the
    body is left, on return and on exception alike; it returns [None], so
    an exception of the body goes on to the caller, unless [__exit__] itself
    raises. *)
Definition exit_after {A : Type} (body : M A) : M A := λ w,
  let '(r, w') := body w in
  match Client_exit w' with
  | (Return _, w'') => (r, w'')
  | (Raise e, w'') => (Raise e, w'')
  end.

(** [with Client(connection_string) as vx: body]: the constructor, then
    [__enter__], then the body followed by [__exit__]. *)
Definition with_client {A : Type} (connection_string : string) (body : M A) : M A :=
  Client_init connection_string;;
  Client_enter;;
  exit_after body.

(** A hint [o] is absent or equal to [e]. *)
Definition agrees (o : option Z) (e : Z) : Prop := o = None ∨ o = Some e.

(** The keys that PostgreSQL keeps unique in its catalog: the schema and
    name of a relation, and the relation and name of a column. *)
Definition catalog_keys_unique (st : Store) : Prop :=
  NoDup ((λ pc, (relnamespace pc, relname pc)) <$> pg_class st)
  ∧ NoDup ((λ pa, (attrelid pa, attname pa)) <$> pg_attribute st).

(** The store with every column retyped by [f]; names, relations and
    declared widths are kept. *)
Definition retype (f : pg_attribute_row → string) (st : Store) : Store :=
  {| schemas := schemas st;
     extensions := extensions st;
     available_extensions := available_extensions st;
     pg_class := pg_class st;
     pg_attribute :=
       (λ pa, mk_attribute (attrelid pa) (attname pa) (f pa) (atttypmod pa))
         <$> pg_attribute st |}.

(** The relation with oid [o] has a column of type [vector]. *)
Definition has_vector_column (o : N) (st : Store) : bool :=
  existsb (λ pa, (attrelid pa =? o)%N && String.eqb (atttypid pa) "vector")
          (pg_attribute st).

(** Two tables of schema [vecs]: [txt], whose column named [vec] is a
    [varchar(10)], and [emb], whose [vector(9)] column is named
    [embedding]. *)
Definition store_text_vec : Store :=
  {| schemas := {[ "vecs" ]}; extensions := {[ "vector" ]};
     available_extensions := {[ "vector" ]};
     pg_class := [mk_class 1 "txt" "vecs" "r"; mk_class 2 "emb" "vecs" "r"];
     pg_attribute := [mk_attribute 1 "vec" "varchar" 14;
                      mk_attribute 2 "embedding" "vector" 9] |}.

(** * Properties *)

Example fresh_world_schemas :
  schemas (store fresh_world) = {[ "vecs" ]} ∧ extensions (store fresh_world) = {[ "vector" ]}.
Proof. vm_compute. split; reflexivity. Qed.

Example docs_created :
  run (get_or_create_collection "docs" (Some 384) None) fresh_world
  = Return (mk_collection "docs" 384 None).
Proof. vm_compute. reflexivity. Qed.

Lemma store_checkout w : store (snd (checkout w)) = store w.
Proof. unfold checkout. by destruct (idle (engine w)). Qed.

Lemma log_checkout w :
  ∃ evs, log (snd (checkout w)) = log w ++ evs ∧ Forall (λ ev, mutating ev = false) evs.
Proof.
  unfold checkout. destruct (idle (engine w)); simpl.
  - exists [EConnect (url (engine w))]. split; [done|]. by repeat constructor.
  - exists []. by rewrite app_nil_r.
Qed.

Lemma after_select_no_mutation name w : no_physical_mutation w (after_select name w).
Proof.
  unfold no_physical_mutation, after_select. simpl. split; [apply store_checkout|].
  destruct (log_checkout w) as (evs & -> & Hevs).
  exists (evs ++ [EBegin; EExecute (select_collection name); ERollback]).
  rewrite <- !app_assoc. split; [done|].
  apply Forall_app. split; [done|]. by repeat constructor.
Qed.

Lemma get_or_create_collection_eq name dimension adapter w :
  get_or_create_collection name dimension adapter w
  = resolve name dimension (existing_dimension name (store w)) adapter (after_select name w).
Proof.
  unfold get_or_create_collection, resolve, existing_dimension, after_select.
  unfold mbind, M_bind, with_session, sess_autobegin, fmap, M_fmap, execute, emit,
    get_store, mret, M_ret, checkout.
  destruct (idle (engine w)) as [|k]; simpl;
    destruct (collection_query name (store w)) as [|[n d] rows]; simpl; reflexivity.
Qed.

(** ** The conflict set *)

Lemma elem_of_reported_dimensions x dimension collection_dimension adapter :
  x ∈ reported_dimensions dimension collection_dimension adapter
  ↔ Some x ∈ [dimension; collection_dimension; adapter ≫= exported_dimension].
Proof.
  unfold reported_dimensions. rewrite elem_of_list_to_set, list_elem_of_omap.
  split.
  - intros (o & Ho & Hx). simpl in Hx. by subst o.
  - intros Hx. by exists (Some x).
Qed.

Lemma size_two_distinct (X : gset Z) a b : a ∈ X → b ∈ X → a ≠ b → (1 < size X)%nat.
Proof.
  intros Ha Hb Hab.
  assert (size ({[ a ]} ∪ {[ b ]} : gset Z) ≤ size X)%nat as Hle.
  { apply subseteq_size. intros x [->%elem_of_singleton | ->%elem_of_singleton]%elem_of_union; done. }
  rewrite size_union, !size_singleton in Hle; [lia|].
  intros x ->%elem_of_singleton Hx%elem_of_singleton. done.
Qed.

Lemma size_two_distinct_inv (X : gset Z) :
  (1 < size X)%nat → ∃ a b, a ∈ X ∧ b ∈ X ∧ a ≠ b.
Proof.
  intros Hsz.
  destruct (size_pos_elem_of X) as [a Ha]; [lia|].
  destruct (size_pos_elem_of (X ∖ {[ a ]})) as [b [Hb Hne]%elem_of_difference].
  { rewrite size_difference, size_singleton; [lia|]. by apply singleton_subseteq_l. }
  exists a, b. repeat split; [done..|]. intros ->. apply Hne. by apply elem_of_singleton.
Qed.

(** The set has more than one element exactly when two sources are present
    with different values. *)
Lemma conflict_set_gt1 dimension collection_dimension adapter :
  (1 < size (reported_dimensions dimension collection_dimension adapter))%nat
  ↔ ∃ a b, Some a ∈ [dimension; collection_dimension; adapter ≫= exported_dimension]
         ∧ Some b ∈ [dimension; collection_dimension; adapter ≫= exported_dimension]
         ∧ a ≠ b.
Proof.
  split.
  - intros (a & b & Ha & Hb & Hab)%size_two_distinct_inv.
    exists a, b. by rewrite <- !elem_of_reported_dimensions.
  - intros (a & b & Ha & Hb & Hab).
    apply (size_two_distinct _ a b); [| |done]; by apply elem_of_reported_dimensions.
Qed.

(** The set is empty exactly when the three sources are absent. *)
Lemma conflict_set_empty dimension collection_dimension adapter :
  size (reported_dimensions dimension collection_dimension adapter) = 0%nat
  ↔ dimension = None ∧ collection_dimension = None ∧ adapter ≫= exported_dimension = None.
Proof.
  rewrite size_empty_iff. split.
  - intros Hempty.
    assert (∀ x, Some x ∉ [dimension; collection_dimension; adapter ≫= exported_dimension])
      as Hnone.
    { intros x Hx%elem_of_reported_dimensions. set_solver. }
    repeat split.
    + destruct dimension as [x|]; [|done]. destruct (Hnone x). set_solver.
    + destruct collection_dimension as [x|]; [|done]. destruct (Hnone x). set_solver.
    + destruct (adapter ≫= exported_dimension) as [x|]; [|done]. destruct (Hnone x). set_solver.
  - intros (-> & -> & Had). unfold reported_dimensions. rewrite Had. set_solver.
Qed.

(** ** C1, C2: the two failures of resolution *)

(** C1.  When two of the three sources of a dimension (the caller's
    [dimension], the width of the existing table found by the lookup, the
    adapter's [exported_dimension]) are present with different values,
    [get_or_create_collection] raises the dimension-mismatch exception, the
    store is left as it was and no create or other mutation is issued. *)
Theorem C1_conflict_raises_and_preserves_store
    (name : string) (dimension : option Z) (adapter : option Adapter) (w : World)
    (a b : Z) :
  Some a ∈ dimension_sources name dimension adapter (store w) →
  Some b ∈ dimension_sources name dimension adapter (store w) →
  a ≠ b →
  (1 < size (reported_dimensions dimension (existing_dimension name (store w)) adapter))%nat
  ∧ ∃ w', get_or_create_collection name dimension adapter w = (Raise conflict_error, w')
        ∧ no_physical_mutation w w'.
Proof.
  intros Ha Hb Hab.
  assert (1 < size (reported_dimensions dimension (existing_dimension name (store w)) adapter))%nat
    as Hsz by (apply conflict_set_gt1; eauto).
  split; [done|].
  exists (after_select name w). split; [|apply after_select_no_mutation].
  rewrite get_or_create_collection_eq. unfold resolve.
  repeat case_decide; try lia. reflexivity.
Qed.

Lemma C1_conflict_witness :
  (1 < size (reported_dimensions (Some 384%Z) (existing_dimension "docs" (store fresh_world))
                                 (Some (mk_adapter (Some 512%Z)))))%nat
  ∧ ∃ w', get_or_create_collection "docs" (Some 384) (Some (mk_adapter (Some 512))) fresh_world
          = (Raise conflict_error, w')
        ∧ no_physical_mutation fresh_world w'.
Proof.
  apply (C1_conflict_raises_and_preserves_store
           "docs" (Some 384) (Some (mk_adapter (Some 512))) fresh_world 384 512).
  - vm_compute. apply list_elem_of_here.
  - vm_compute. do 2 apply list_elem_of_further. apply list_elem_of_here.
  - lia.
Defined.

(** C2.  With no caller dimension, no adapter or an adapter that declares no
    dimension, and no row found by the lookup for [name],
    [get_or_create_collection] raises the configuration exception, and the
    store is left as it was with no create issued. *)
Theorem C2_no_source_raises_configuration_error
    (name : string) (adapter : option Adapter) (w : World) :
  adapter = None ∨ (∃ ad, adapter = Some ad ∧ exported_dimension ad = None) →
  collection_query name (store w) = [] →
  ∃ w', get_or_create_collection name None adapter w = (Raise configuration_error, w')
      ∧ no_physical_mutation w w'.
Proof.
  intros Had Hq.
  exists (after_select name w). split; [|apply after_select_no_mutation].
  rewrite get_or_create_collection_eq. unfold resolve, existing_dimension. rewrite Hq. simpl.
  assert (size (reported_dimensions None None adapter) = 0%nat) as Hsz.
  { apply conflict_set_empty. repeat split.
    destruct Had as [->|(ad & -> & Hnone)]; [done|]. simpl. exact Hnone. }
  case_decide; [reflexivity|contradiction].
Qed.

Lemma C2_no_source_witness :
  ∃ w', get_or_create_collection "docs" None (Some (mk_adapter None)) fresh_world
        = (Raise configuration_error, w')
      ∧ no_physical_mutation fresh_world w'.
Proof.
  apply (C2_no_source_raises_configuration_error "docs" (Some (mk_adapter None)) fresh_world).
  - right. exists (mk_adapter None). split; reflexivity.
  - vm_compute. reflexivity.
Defined.

(** ** The metadata lookup *)

Lemma vec_column_true pc pa :
  vec_column pc pa = true
  ↔ oid pc = attrelid pa ∧ relnamespace pc = "vecs" ∧ relkind pc = "r"%char
    ∧ attname pa = "vec" ∧ String.prefix "_" (relname pc) = false.
Proof.
  unfold vec_column.
  rewrite !andb_true_iff, negb_true_iff, N.eqb_eq, !String.eqb_eq, Ascii.eqb_eq.
  tauto.
Qed.

Lemma elem_of_collection_query name st n d :
  (n, d) ∈ collection_query name st ↔ n = name ∧ physical_table st name d.
Proof.
  unfold collection_query, physical_table. rewrite list_elem_of_bind. split.
  - intros (pc & (pa & Hrow & Hpa)%list_elem_of_bind & Hpc).
    destruct (vec_column pc pa && String.eqb (relname pc) name) eqn:Hm;
      [|by apply not_elem_of_nil in Hrow].
    apply list_elem_of_singleton in Hrow. injection Hrow as -> ->.
    apply andb_true_iff in Hm as [Hv Hn%String.eqb_eq].
    apply vec_column_true in Hv as (? & ? & ? & ? & ?).
    split; [done|]. by exists pc, pa.
  - intros (-> & pc & pa & Hpc & Hpa & Hoid & Hns & Hk & Hat & Hpre & Hn & Hd).
    exists pc. split; [|done]. apply list_elem_of_bind. exists pa. split; [|done].
    assert (vec_column pc pa = true) as -> by (by apply vec_column_true).
    rewrite <- Hn, String.eqb_refl. simpl. rewrite Hd, Hn. apply list_elem_of_here.
Qed.

Lemma existing_dimension_Some name st d :
  existing_dimension name st = Some d → physical_table st name d.
Proof.
  unfold existing_dimension, fetchone.
  destruct (collection_query name st) as [|[n d'] rows] eqn:Hq; [done|].
  simpl. intros [= ->].
  apply (elem_of_collection_query name st n d). rewrite Hq. apply list_elem_of_here.
Qed.

Lemma existing_dimension_None name st :
  existing_dimension name st = None ↔ ¬ ∃ d, physical_table st name d.
Proof.
  unfold existing_dimension, fetchone. split.
  - destruct (collection_query name st) as [|[n d'] rows] eqn:Hq; [|done].
    intros _ [d Hd].
    assert ((name, d) ∈ collection_query name st) as Hin
      by (by apply elem_of_collection_query).
    rewrite Hq in Hin. by apply not_elem_of_nil in Hin.
  - intros Hno. destruct (collection_query name st) as [|[n d'] rows] eqn:Hq; [done|].
    destruct Hno. exists d'.
    apply (elem_of_collection_query name st n d'). rewrite Hq. apply list_elem_of_here.
Qed.

Lemma get_collection_eq name w :
  get_collection name w
  = (match fetchone (collection_query name (store w)) with
     | None => Raise not_found_error
     | Some (n, d) => Return (mk_collection n d None)
     end, after_select name w).
Proof.
  unfold get_collection, after_select.
  unfold mbind, M_bind, with_session, sess_autobegin, fmap, M_fmap, execute, emit,
    get_store, mret, M_ret, checkout.
  destruct (idle (engine w)) as [|k]; simpl;
    destruct (collection_query name (store w)) as [|[n d] rows]; reflexivity.
Qed.

(** C7.  [get_collection] raises [CollectionNotFound] exactly when the
    managed namespace has no matching physical table, and raises nothing
    else; when it returns, the descriptor carries the requested name and the
    declared width of that table's [vec] column, the one the lookup found;
    and it returns whenever a matching table exists.  The store is only
    read. *)
Theorem C7_get_collection_not_found_iff_absent (nm : string) (w : World) :
  (run (get_collection nm) w = Raise not_found_error
   ↔ ¬ ∃ d, physical_table (store w) nm d)
  ∧ (∀ e, run (get_collection nm) w = Raise e → e = not_found_error)
  ∧ (∀ c, run (get_collection nm) w = Return c →
          name c = nm ∧ adapter c = None
          ∧ physical_table (store w) nm (dimension c)
          ∧ existing_dimension nm (store w) = Some (dimension c))
  ∧ ((∃ d, physical_table (store w) nm d) → ∃ c, run (get_collection nm) w = Return c)
  ∧ no_physical_mutation w (exec (get_collection nm) w).
Proof.
  unfold run, exec. rewrite get_collection_eq. simpl.
  pose proof (existing_dimension_None nm (store w)) as Hnone.
  pose proof (existing_dimension_Some nm (store w)) as Hsome.
  pose proof (elem_of_collection_query nm (store w)) as Hrows.
  unfold existing_dimension, fetchone in *.
  destruct (collection_query nm (store w)) as [|[n d] rows]; simpl in *.
  - split; [|split; [|split; [|split]]].
    + split; [intros _; by apply Hnone|done].
    + by intros e [= <-].
    + done.
    + intros Hex. by apply Hnone in Hex.
    + apply after_select_no_mutation.
  - destruct (Hrows n d) as [[-> Hphys] _]; [apply list_elem_of_here|].
    split; [|split; [|split; [|split]]].
    + split; [done|]. intros Hno. destruct Hno. by exists d.
    + done.
    + by intros c [= <-].
    + intros _. by eexists.
    + apply after_select_no_mutation.
Qed.

Lemma list_collections_eq w :
  list_collections w
  = (Return (pc ← pg_class (store w);
             pa ← pg_attribute (store w);
             if vec_column pc pa
             then [mk_collection (relname pc) (atttypmod pa) None] else []),
     checkin (snd (checkout (add_log EList w)))).
Proof.
  unfold list_collections, Collection_list_collections.
  unfold mbind, M_bind, with_session, emit, get_store, mret, M_ret.
  simpl. by rewrite store_checkout.
Qed.

Lemma elem_of_list_collections st c :
  c ∈ (pc ← pg_class st;
       pa ← pg_attribute st;
       if vec_column pc pa then [mk_collection (relname pc) (atttypmod pa) None] else [])
  ↔ adapter c = None ∧ physical_table st (name c) (dimension c).
Proof.
  unfold physical_table. rewrite list_elem_of_bind. split.
  - intros (pc & (pa & Hrow & Hpa)%list_elem_of_bind & Hpc).
    destruct (vec_column pc pa) eqn:Hv; [|by apply not_elem_of_nil in Hrow].
    apply list_elem_of_singleton in Hrow. subst c. simpl.
    apply vec_column_true in Hv as (? & ? & ? & ? & ?).
    split; [done|]. by exists pc, pa.
  - destruct c as [n d ad]. simpl.
    intros (-> & pc & pa & Hpc & Hpa & Hoid & Hns & Hk & Hat & Hpre & <- & <-).
    exists pc. split; [|done]. apply list_elem_of_bind. exists pa. split; [|done].
    assert (vec_column pc pa = true) as -> by (by apply vec_column_true).
    apply list_elem_of_here.
Qed.

Lemma list_bind_fmap_l {A B C : Type} (g : A → B) (h : B → list C) (l : list A) :
  (g <$> l) ≫= h = l ≫= (λ a, h (g a)).
Proof.
  induction l as [|a l IH]; [done|].
  by rewrite fmap_cons, !bind_cons, IH.
Qed.

(** The lookup never reads the type of a column. *)
Lemma collection_query_retype f nm st :
  collection_query nm (retype f st) = collection_query nm st.
Proof.
  unfold collection_query, retype. cbn [pg_class pg_attribute].
  apply list_bind_ext; [|done]. intros pc.
  by rewrite list_bind_fmap_l.
Qed.

(** C5, as amended.  A row [(n, d)] is in the answer of the lookup for [nm]
    exactly when [n] is [nm] and the catalog has an ordinary table
    ([relkind = 'r']) of schema [vecs] named exactly [nm], whose name does
    not start with ['_'], with a column named [vec] of declared width [d];
    the type of that column is not looked at, so retyping the columns
    changes no answer.  A name with the reserved prefix is never found.
    [list_collections] returns the descriptors that the lookup finds under
    their own names, and none of the names it returns starts with ['_']. *)
Theorem C5_lookup_and_list_exclude_reserved_prefix (nm : string) (w : World) :
  (∀ n d, (n, d) ∈ collection_query nm (store w)
          ↔ n = nm ∧ physical_table (store w) nm d)
  ∧ (∀ f, collection_query nm (retype f (store w)) = collection_query nm (store w))
  ∧ (∀ d, physical_table (store w) nm d → String.prefix "_" nm = false)
  ∧ (String.prefix "_" nm = true → collection_query nm (store w) = [])
  ∧ ∃ cs, run list_collections w = Return cs
        ∧ (∀ c, c ∈ cs ↔ adapter c = None
                          ∧ (name c, dimension c) ∈ collection_query (name c) (store w))
        ∧ (∀ c, c ∈ cs → String.prefix "_" (name c) = false).
Proof.
  assert (∀ n d, physical_table (store w) n d → String.prefix "_" n = false) as Hpre.
  { intros n d (pc & pa & _ & _ & _ & _ & _ & _ & Hp & <- & _). exact Hp. }
  split; [|split; [|split; [|split]]].
  - intros n d. apply elem_of_collection_query.
  - intros f. apply collection_query_retype.
  - intros d. apply Hpre.
  - intros Hres.
    destruct (collection_query nm (store w)) as [|[n d] rows] eqn:Hq; [done|].
    assert ((n, d) ∈ collection_query nm (store w)) as Hin
      by (rewrite Hq; apply list_elem_of_here).
    apply elem_of_collection_query in Hin as [_ Hphys%Hpre]. congruence.
  - unfold run. rewrite list_collections_eq. simpl. eexists. split; [reflexivity|].
    split.
    + intros c. rewrite elem_of_list_collections, elem_of_collection_query. tauto.
    + intros c [_ Hphys]%elem_of_list_collections. by apply Hpre in Hphys.
Qed.

(** C5 as stated fails: the lookup for [txt] answers with the width of a
    [varchar] column named [vec], and [get_collection] returns it, although
    that table has no column of type [vector]; and the table [emb], which
    has one under another name, is not found. *)
Lemma C5_counterexample :
  collection_query "txt" store_text_vec = [("txt", 14)]
  ∧ has_vector_column 1 store_text_vec = false
  ∧ run (get_collection "txt") (set_store store_text_vec fresh_world)
    = Return (mk_collection "txt" 14 None)
  ∧ collection_query "emb" store_text_vec = []
  ∧ has_vector_column 2 store_text_vec = true.
Proof. vm_compute. repeat split; reflexivity. Qed.

Example list_skips_internal :
  run list_collections (set_store store_with_internal fresh_world)
  = Return [mk_collection "docs" 384 None]
  ∧ collection_query "_staging" store_with_internal = [].
Proof. split; vm_compute; reflexivity. Qed.

(** ** C9: the descriptor of [delete_collection] *)

Lemma delete_collection_log nm w :
  ∃ evs, log (exec (delete_collection nm) w)
         = log w ++ EDrop (mk_collection nm (-1) None) :: evs
       ∧ Forall (λ ev, ∃ u, ev = EConnect u) evs.
Proof.
  unfold exec, delete_collection, Collection_drop.
  unfold mbind, M_bind, with_session, emit, get_store, put_store, raise, mret, M_ret.
  simpl. unfold checkout. simpl.
  destruct (idle (engine w)) as [|k]; simpl;
    destruct (table_exists nm (store w)); simpl;
    rewrite <- ?app_assoc; simpl; eexists; (split; [reflexivity|]);
    repeat constructor; by eexists.
Qed.

(** C9.  For every name and every world, [delete_collection] hands the
    query surface the descriptor [Collection(name, -1, client)]: the drop
    that the run logs carries dimension [-1], which is not positive,
    whatever width the table of that name has, and the run issues no lookup
    of the width (besides the drop, at most a connection is opened). *)
Theorem C9_delete_uses_sentinel_dimension (nm : string) (w : World) :
  ∃ evs, log (exec (delete_collection nm) w)
         = log w ++ EDrop (mk_collection nm (-1) None) :: evs
       ∧ Forall (λ ev, ∃ u, ev = EConnect u) evs
       ∧ dimension (mk_collection nm (-1) None) = -1
       ∧ ¬ 0 < dimension (mk_collection nm (-1) None).
Proof.
  destruct (delete_collection_log nm w) as (evs & Hlog & Hevs).
  exists evs. repeat split; [done..|]. simpl. lia.
Qed.

(** A table of width 384 is dropped through a descriptor of dimension -1. *)
Example delete_docs_log :
  let w := exec (get_or_create_collection "docs" (Some 384) None) fresh_world in
  existing_dimension "docs" (store w) = Some 384
  ∧ drop (length (log w)) (log (exec (delete_collection "docs") w))
    = [EDrop (mk_collection "docs" (-1) None)]
  ∧ run list_collections (exec (delete_collection "docs") w) = Return [].
Proof. vm_compute. repeat split; reflexivity. Qed.

(** ** C10: reuse is decided by the truth value of the width *)

Lemma head_elements_singleton (X : gset Z) x :
  x ∈ X → ¬ (1 < size X)%nat → head (elements X) = Some x.
Proof.
  intros Hx Hsz.
  assert (size X = 1%nat) as Hone.
  { assert (size X ≠ 0%nat); [|lia].
    intros Hz%size_empty_iff. rewrite Hz in Hx. by apply not_elem_of_empty in Hx. }
  apply size_1_elem_of in Hone as [y Hy]. apply leibniz_equiv in Hy. subst X.
  apply elem_of_singleton in Hx as ->. by rewrite elements_singleton.
Qed.

Lemma resolve_not_empty nm dimension cd adapter x :
  x ∈ reported_dimensions dimension cd adapter →
  resolve nm dimension cd adapter
  = if decide (1 < size (reported_dimensions dimension cd adapter))%nat
    then raise conflict_error
    else if truthy cd then mret (mk_collection nm x adapter)
         else Collection_create (mk_collection nm x adapter).
Proof.
  intros Hx. unfold resolve. simpl.
  case_decide as Hz.
  { apply size_empty_iff in Hz. rewrite Hz in Hx. by apply not_elem_of_empty in Hx. }
  case_decide as Hgt; [done|].
  by rewrite (head_elements_singleton _ x).
Qed.

Lemma Collection_create_log c w :
  ∃ evs, log (snd (Collection_create c w)) = log w ++ ECreate c :: evs
       ∧ Forall (λ ev, ∃ u, ev = EConnect u) evs.
Proof.
  unfold Collection_create.
  unfold mbind, M_bind, with_session, emit, get_store, put_store, raise, mret, M_ret.
  simpl. unfold checkout. simpl.
  destruct (idle (engine w)) as [|k]; simpl;
    destruct (table_exists (name c) (store w)); simpl;
    rewrite <- ?app_assoc; simpl; eexists; (split; [reflexivity|]);
    repeat constructor; by eexists.
Qed.

(** C10.  When the first row of the lookup has width 0, the value 0 is in
    the set of reported dimensions, and [collection_dimension] being falsy
    the call never returns through the reuse branch: it either raises the
    mismatch exception (another source reports a nonzero value) or goes on
    to [Collection._create] with the descriptor of dimension 0, and that
    create is logged although the table exists. *)
Theorem C10_zero_width_takes_create_branch
    (nm : string) (dimension : option Z) (adapter : option Adapter) (w : World)
    (n : string) (rows : list (string * Z)) :
  collection_query nm (store w) = (n, 0) :: rows →
  existing_dimension nm (store w) = Some 0
  ∧ physical_table (store w) nm 0
  ∧ 0 ∈ reported_dimensions dimension (existing_dimension nm (store w)) adapter
  ∧ get_or_create_collection nm dimension adapter w
    = (if decide (1 < size (reported_dimensions dimension (Some 0%Z) adapter))%nat
       then raise conflict_error
       else Collection_create (mk_collection nm 0 adapter)) (after_select nm w)
  ∧ (¬ (1 < size (reported_dimensions dimension (Some 0%Z) adapter))%nat →
     ECreate (mk_collection nm 0 adapter)
       ∈ log (exec (get_or_create_collection nm dimension adapter) w)).
Proof.
  intros Hq.
  assert (existing_dimension nm (store w) = Some 0) as Hex
    by (unfold existing_dimension; by rewrite Hq).
  assert (0 ∈ reported_dimensions dimension (Some 0) adapter) as Hin.
  { apply elem_of_reported_dimensions. apply list_elem_of_further, list_elem_of_here. }
  assert (get_or_create_collection nm dimension adapter w
    = (if decide (1 < size (reported_dimensions dimension (Some 0%Z) adapter))%nat
       then raise conflict_error
       else Collection_create (mk_collection nm 0 adapter)) (after_select nm w)) as Heq.
  { rewrite get_or_create_collection_eq, Hex, (resolve_not_empty _ _ _ _ 0 Hin).
    by case_decide. }
  split; [done|]. split; [by apply existing_dimension_Some|].
  split; [by rewrite Hex|]. split; [done|].
  intros Hle. unfold exec. rewrite Heq. case_decide; [done|].
  destruct (Collection_create_log (mk_collection nm 0 adapter) (after_select nm w))
    as (evs & -> & _).
  apply elem_of_app. right. apply list_elem_of_here.
Qed.

Lemma C10_zero_width_witness :
  existing_dimension "t" (store world_zero_width) = Some 0
  ∧ physical_table (store world_zero_width) "t" 0
  ∧ 0 ∈ reported_dimensions None (existing_dimension "t" (store world_zero_width)) None
  ∧ get_or_create_collection "t" None None world_zero_width
    = (if decide (1 < size (reported_dimensions None (Some 0%Z) None))%nat
       then raise conflict_error
       else Collection_create (mk_collection "t" 0 None)) (after_select "t" world_zero_width)
  ∧ (¬ (1 < size (reported_dimensions None (Some 0%Z) None))%nat →
     ECreate (mk_collection "t" 0 None)
       ∈ log (exec (get_or_create_collection "t" None None) world_zero_width)).
Proof.
  apply (C10_zero_width_takes_create_branch "t" None None world_zero_width "t" []).
  vm_compute. reflexivity.
Defined.

Example zero_width_call_fails :
  run (get_or_create_collection "t" None None) world_zero_width
  = Raise already_exists_error.
Proof. vm_compute. reflexivity. Qed.

(** ** The lookup after a create *)

Lemma foldr_max_ge (l : list N) x : x ∈ l → (x ≤ foldr N.max 0 l)%N.
Proof.
  induction l as [|y l IH]; intros Hx; [by apply not_elem_of_nil in Hx|].
  apply elem_of_cons in Hx as [->|Hx]; simpl; [lia|]. specialize (IH Hx). lia.
Qed.

Lemma fresh_oid_class st pc : pc ∈ pg_class st → oid pc ≠ fresh_oid st.
Proof.
  intros Hpc. unfold fresh_oid.
  assert (oid pc ≤ foldr N.max 0 (oid <$> pg_class st))%N
    by (apply foldr_max_ge, list_elem_of_fmap; by exists pc).
  lia.
Qed.

Lemma fresh_oid_attribute st pa : pa ∈ pg_attribute st → attrelid pa ≠ fresh_oid st.
Proof.
  intros Hpa. unfold fresh_oid.
  assert (attrelid pa ≤ foldr N.max 0 (attrelid <$> pg_attribute st))%N
    by (apply foldr_max_ge, list_elem_of_fmap; by exists pa).
  lia.
Qed.

Lemma list_bind_nil_iff {A B : Type} (f : A → list B) (l : list A) :
  l ≫= f = [] ↔ ∀ x, x ∈ l → f x = [].
Proof.
  induction l as [|y l IH].
  - split; [|done]. intros _ x Hx. by apply not_elem_of_nil in Hx.
  - rewrite bind_cons. split.
    + intros [Hy Hl]%app_eq_nil x [->|Hx]%elem_of_cons; [done|]. by apply IH.
    + intros Hall. rewrite (Hall y), (proj2 IH); [done| |apply list_elem_of_here].
      intros x Hx. apply Hall. by apply list_elem_of_further.
Qed.

Lemma vec_column_oid_ne pc pa : oid pc ≠ attrelid pa → vec_column pc pa = false.
Proof.
  intros Hne. unfold vec_column. by apply N.eqb_neq in Hne as ->.
Qed.

(** After [create_table nm d] on a store where the lookup for [nm] found
    nothing, the lookup finds the new table with width [d], provided the
    name does not start with ['_']. *)
Lemma collection_query_create_table nm d st :
  String.prefix "_" nm = false →
  collection_query nm st = [] →
  collection_query nm (create_table nm d st) = [(nm, d)].
Proof.
  intros Hpre Hq. unfold collection_query in *. simpl.
  rewrite bind_app, bind_singleton.
  rewrite list_bind_nil_iff in Hq.
  assert ((pg_class st ≫= λ pc, (pg_attribute st ++ [mk_attribute (fresh_oid st) "vec" "vector" d]) ≫= λ pa,
             if vec_column pc pa && String.eqb (relname pc) nm
             then [(relname pc, atttypmod pa)] else []) = []) as ->.
  { apply list_bind_nil_iff. intros pc Hpc.
    rewrite bind_app, (Hq pc Hpc), bind_singleton. simpl.
    rewrite vec_column_oid_ne; [done|]. simpl. by apply fresh_oid_class. }
  rewrite bind_app, bind_singleton.
  assert ((pg_attribute st ≫= λ pa,
             if vec_column (mk_class (fresh_oid st) nm "vecs" "r") pa
                && String.eqb (relname (mk_class (fresh_oid st) nm "vecs" "r")) nm
             then [(relname (mk_class (fresh_oid st) nm "vecs" "r"), atttypmod pa)]
             else []) = []) as ->.
  { apply list_bind_nil_iff. intros pa Hpa.
    rewrite vec_column_oid_ne; [done|]. simpl.
    intros Heq. by apply (fresh_oid_attribute st pa). }
  simpl. unfold vec_column. simpl.
  by rewrite N.eqb_refl, Hpre, String.eqb_refl.
Qed.

Lemma existing_dimension_eq_None nm st :
  existing_dimension nm st = None ↔ collection_query nm st = [].
Proof.
  unfold existing_dimension, fetchone.
  by destruct (collection_query nm st) as [|[n d] rows].
Qed.

Lemma table_exists_physical_table nm st d :
  physical_table st nm d → table_exists nm st = true.
Proof.
  intros (pc & pa & Hpc & _ & _ & Hns & Hk & _ & _ & Hn & _).
  unfold table_exists. apply existsb_exists. exists pc.
  split; [exact (proj1 (list_elem_of_In _ _) Hpc)|].
  unfold table_named. rewrite Hns, Hk, Hn, !String.eqb_refl, Ascii.eqb_refl. reflexivity.
Qed.

Lemma Collection_create_eq c w :
  Collection_create c w
  = if table_exists (name c) (store w)
    then (Raise already_exists_error, checkin (snd (checkout (add_log (ECreate c) w))))
    else (Return c,
          checkin (set_store (create_table (name c) (dimension c) (store w))
                             (snd (checkout (add_log (ECreate c) w))))).
Proof.
  unfold Collection_create.
  unfold mbind, M_bind, with_session, emit, get_store, put_store, raise, mret, M_ret.
  simpl. rewrite store_checkout. simpl.
  destruct (table_exists (name c) (store w)); reflexivity.
Qed.

Lemma store_after_select nm w : store (after_select nm w) = store w.
Proof. apply after_select_no_mutation. Qed.

(** ** C3: reuse and repeated calls *)

Lemma reported_agree d cd :
  cd = None ∨ cd = Some d →
  ¬ (1 < size (reported_dimensions (Some d) cd None))%nat.
Proof.
  intros Hcd (a & b & Ha & Hb & Hab)%conflict_set_gt1. apply Hab.
  assert (∀ x, Some x ∈ [Some d; cd; None ≫= exported_dimension] → x = d) as Hall.
  { intros x Hx. repeat (apply elem_of_cons in Hx as [Hx|Hx]); simpl in *.
    - congruence.
    - destruct Hcd; congruence.
    - done.
    - by apply not_elem_of_nil in Hx. }
  by rewrite (Hall a), (Hall b).
Qed.

Lemma reported_first d cd adapter : d ∈ reported_dimensions (Some d) cd adapter.
Proof. apply elem_of_reported_dimensions, list_elem_of_here. Qed.

Lemma reported_second dimension e adapter : e ∈ reported_dimensions dimension (Some e) adapter.
Proof. apply elem_of_reported_dimensions, list_elem_of_further, list_elem_of_here. Qed.

Lemma truthy_Some d : d ≠ 0 → truthy (Some d) = true.
Proof. intros Hd. simpl. by apply Z.eqb_neq in Hd as ->. Qed.

(** The reuse branch: a row of nonzero width that agrees with the other
    sources is returned as it is. *)
Lemma get_or_create_collection_reuse nm dimension adapter e w :
  existing_dimension nm (store w) = Some e → e ≠ 0 →
  ¬ (1 < size (reported_dimensions dimension (Some e) adapter))%nat →
  get_or_create_collection nm dimension adapter w
  = (Return (mk_collection nm e adapter), after_select nm w).
Proof.
  intros Hex He Hsz.
  rewrite get_or_create_collection_eq, Hex.
  rewrite (resolve_not_empty _ _ _ _ e (reported_second _ _ _)).
  case_decide; [done|]. by rewrite truthy_Some.
Qed.

(** C3.  For a collection name, which does not start with ['_'], and a
    positive dimension [d]: (1) when the lookup finds a table for the name
    whose width is positive and agrees with the other sources, so that it is
    the resolved dimension, the call returns the descriptor with that width
    and neither changes the store nor issues a create; (2) when
    [get_or_create_collection(name, dimension=d)] returns, the same call
    made next returns the same descriptor and changes nothing, and over the
    two calls the store either is unchanged (the table was there with width
    [d]) or has gained exactly the one table made by the first call. *)
Theorem C3_get_or_create_idempotent (nm : string) (d : Z) (w : World) :
  String.prefix "_" nm = false →
  0 < d →
  (∀ dimension adapter e,
     existing_dimension nm (store w) = Some e → 0 < e →
     ¬ (1 < size (reported_dimensions dimension (Some e) adapter))%nat →
     ∃ w', get_or_create_collection nm dimension adapter w
           = (Return (mk_collection nm e adapter), w')
         ∧ no_physical_mutation w w')
  ∧ (∀ c w1,
       get_or_create_collection nm (Some d) None w = (Return c, w1) →
       c = mk_collection nm d None
       ∧ ∃ w2, get_or_create_collection nm (Some d) None w1 = (Return c, w2)
             ∧ no_physical_mutation w1 w2
             ∧ (existing_dimension nm (store w) = Some d ∧ store w2 = store w
                ∨ existing_dimension nm (store w) = None
                  ∧ store w2 = create_table nm d (store w)
                  ∧ length (pg_class (store w2)) = S (length (pg_class (store w))))).
Proof.
  intros Hpre Hpos. assert (d ≠ 0) as Hd by lia. split.
  - intros dimension adapter e Hex He Hsz. exists (after_select nm w).
    split; [apply get_or_create_collection_reuse; [done|lia|done]
           |apply after_select_no_mutation].
  - intros c w1 Hfirst.
    rewrite get_or_create_collection_eq in Hfirst.
    rewrite (resolve_not_empty _ _ _ _ d (reported_first _ _ _)) in Hfirst.
    case_decide as Hsz; [done|].
    destruct (existing_dimension nm (store w)) as [e|] eqn:Hex.
    + assert (e = d) as ->.
      { destruct (decide (e = d)) as [|Hne]; [done|]. destruct Hsz.
        apply (size_two_distinct _ e d); [apply reported_second|apply reported_first|done]. }
      rewrite truthy_Some in Hfirst by done. injection Hfirst as <- <-.
      split; [done|]. exists (after_select nm (after_select nm w)).
      split; [|split].
      * apply get_or_create_collection_reuse; [|done|done].
        by rewrite store_after_select.
      * apply after_select_no_mutation.
      * left. split; [done|]. by rewrite !store_after_select.
    + simpl in Hfirst. rewrite Collection_create_eq in Hfirst.
      rewrite !store_after_select in Hfirst. cbn [name dimension] in Hfirst.
      destruct (table_exists nm (store w)); [done|].
      injection Hfirst as <- Hw1. split; [done|].
      assert (store w1 = create_table nm d (store w)) as Hst by (by rewrite <- Hw1).
      assert (existing_dimension nm (store w1) = Some d) as Hex1.
      { rewrite Hst. unfold existing_dimension.
        rewrite collection_query_create_table; [done|done|].
        by apply existing_dimension_eq_None. }
      exists (after_select nm w1). split; [|split].
      * apply get_or_create_collection_reuse; [done|done|]. apply reported_agree. by right.
      * apply after_select_no_mutation.
      * right. split; [done|]. rewrite store_after_select, Hst. split; [done|].
        simpl. rewrite length_app. simpl. lia.
Qed.

(** The two halves on the database of the specification's scenario: the
    call on the existing collection [docs], and the first two calls on the
    new database. *)
Lemma C3_idempotent_witness :
  (∃ w', get_or_create_collection "docs" (Some 384) None world_docs
         = (Return (mk_collection "docs" 384 None), w')
       ∧ no_physical_mutation world_docs w')
  ∧ (mk_collection "docs" 384 None = mk_collection "docs" 384 None
     ∧ ∃ w2, get_or_create_collection "docs" (Some 384) None world_docs
             = (Return (mk_collection "docs" 384 None), w2)
           ∧ no_physical_mutation world_docs w2
           ∧ (existing_dimension "docs" (store fresh_world) = Some 384
              ∧ store w2 = store fresh_world
              ∨ existing_dimension "docs" (store fresh_world) = None
                ∧ store w2 = create_table "docs" 384 (store fresh_world)
                ∧ length (pg_class (store w2)) = S (length (pg_class (store fresh_world))))).
Proof.
  split.
  - apply (C3_get_or_create_idempotent "docs" 384 world_docs);
      [reflexivity|lia|vm_compute; reflexivity|lia|].
    apply reported_agree. by right.
  - apply (C3_get_or_create_idempotent "docs" 384 fresh_world);
      [reflexivity|lia|]. vm_compute. reflexivity.
Defined.

(** ** C4: the kinds of the errors *)

Lemma head_elements_size_1 (X : gset Z) :
  size X ≠ 0%nat → ¬ (1 < size X)%nat → ∃ x, x ∈ X ∧ head (elements X) = Some x.
Proof.
  intros Hz Hgt.
  destruct (size_pos_elem_of X) as [x Hx]; [lia|].
  exists x. split; [done|]. by apply head_elements_singleton.
Qed.

(** What [get_or_create_collection] can raise, and when. *)
Lemma get_or_create_collection_raises nm dim adapter w e :
  run (get_or_create_collection nm dim adapter) w = Raise e →
  let rd := reported_dimensions dim (existing_dimension nm (store w)) adapter in
  (e = configuration_error ∧ size rd = 0%nat)
  ∨ (e = conflict_error ∧ (1 < size rd)%nat)
  ∨ (e = already_exists_error ∧ size rd = 1%nat
     ∧ truthy (existing_dimension nm (store w)) = false
     ∧ table_exists nm (store w) = true).
Proof.
  unfold run. rewrite get_or_create_collection_eq. unfold resolve. simpl.
  case_decide as Hz; [intros [= <-]; by left|].
  case_decide as Hgt; [intros [= <-]; right; by left|].
  destruct (head_elements_size_1 _ Hz Hgt) as (x & Hx & ->).
  destruct (truthy (existing_dimension nm (store w))) eqn:Htr; [done|].
  rewrite Collection_create_eq, store_after_select. cbn [name dimension].
  destruct (table_exists nm (store w)) eqn:Hte; [|done].
  intros [= <-]. right. right. repeat split; [lia|done..].
Qed.

(** C4 (amended).  The not-found error and the already-exists error have
    classes of their own, [CollectionNotFound] and
    [CollectionAlreadyExists].  The configuration error and the
    dimension-conflict error are both raised as a plain [Exception]: their
    kind is the same and only the message tells them apart.  These are the
    only errors of [get_or_create_collection], [get_collection] and
    [create_collection]. *)
Theorem C4_error_kinds
    (nm : string) (dim : option Z) (d : Z) (adapter : option Adapter) (w : World) :
  kind configuration_error = Exception
  ∧ kind conflict_error = Exception
  ∧ message configuration_error ≠ message conflict_error
  ∧ kind not_found_error = CollectionNotFound
  ∧ kind already_exists_error = CollectionAlreadyExists
  ∧ Exception ≠ CollectionNotFound
  ∧ Exception ≠ CollectionAlreadyExists
  ∧ CollectionNotFound ≠ CollectionAlreadyExists
  ∧ (∀ e, run (get_or_create_collection nm dim adapter) w = Raise e →
          e = configuration_error
            ∧ size (reported_dimensions dim (existing_dimension nm (store w)) adapter)
              = 0%nat
          ∨ e = conflict_error
            ∧ (1 < size (reported_dimensions dim (existing_dimension nm (store w)) adapter))%nat
          ∨ e = already_exists_error ∧ table_exists nm (store w) = true)
  ∧ (∀ e, run (get_collection nm) w = Raise e →
          e = not_found_error ∧ existing_dimension nm (store w) = None)
  ∧ (∀ e, run (create_collection nm d) w = Raise e →
          e = already_exists_error ∧ table_exists nm (store w) = true).
Proof.
  repeat (split; [done|]). split; [|split].
  - intros e He. apply get_or_create_collection_raises in He. simpl in He.
    destruct He as [?|[?|(? & _ & _ & ?)]]; auto.
  - unfold run. rewrite get_collection_eq. simpl. unfold existing_dimension, fetchone.
    destruct (collection_query nm (store w)) as [|[n d'] rows]; [|done].
    by intros e [= <-].
  - unfold run, create_collection. rewrite Collection_create_eq. cbn [name dimension].
    destruct (table_exists nm (store w)); [|done]. by intros e [= <-].
Qed.

(** C4 as stated fails: the configuration error (no source) and the
    dimension-conflict error (two sources that differ) have the same kind. *)
Lemma C4_counterexample :
  ∃ e1 e2,
    size (reported_dimensions None (existing_dimension "docs" (store fresh_world)) None) = 0%nat
    ∧ run (get_or_create_collection "docs" None None) fresh_world = Raise e1
    ∧ size (reported_dimensions (Some 384) (existing_dimension "docs" (store fresh_world))
                                (Some (mk_adapter (Some 512)))) = 2%nat
    ∧ run (get_or_create_collection "docs" (Some 384) (Some (mk_adapter (Some 512))))
          fresh_world = Raise e2
    ∧ kind e1 = kind e2.
Proof.
  exists configuration_error, conflict_error. vm_compute. repeat split; reflexivity.
Qed.

(** ** C6: the bootstrap of [Client.__init__] *)

Lemma elem_of_singleton_union (y : string) (X : gset string) : y ∈ {[ y ]} ∪ X.
Proof. apply elem_of_union_l. by apply elem_of_singleton. Qed.

Lemma Store_eq (s1 s2 : Store) :
  schemas s1 = schemas s2 → extensions s1 = extensions s2 →
  available_extensions s1 = available_extensions s2 →
  pg_class s1 = pg_class s2 → pg_attribute s1 = pg_attribute s2 → s1 = s2.
Proof. destruct s1, s2. cbn. by intros -> -> -> -> ->. Qed.

Lemma run_Client_init connection_string w :
  run (Client_init connection_string) w
  = run (bootstrap "vecs" "vector")
        (set_engine {| url := connection_string; idle := 0 |} w).
Proof. reflexivity. Qed.

Lemma exec_Client_init connection_string w :
  exec (Client_init connection_string) w
  = exec (bootstrap "vecs" "vector")
         (set_engine {| url := connection_string; idle := 0 |} w).
Proof. reflexivity. Qed.

(** The two statements for any schema [s] and extension [x], sent on an
    engine whose pool is empty, as it is after [create_engine]. *)
Section Bootstrap.
Variables (s x : string) (w : World).
Hypothesis Hidle : idle (engine w) = 0%nat.

Lemma bootstrap_run :
  bootstrap s x w
  = let st1 := if decide (s ∈ schemas (store w)) then store w else add_schema s (store w) in
    let w1 := add_log (EExecute (create_extension_if_not_exists x))
                (set_store st1
                   (add_log (EExecute (create_schema_if_not_exists s))
                      (add_log EBegin (add_log (EConnect (url (engine w))) w)))) in
    if decide (x ∈ extensions (store w)) then (Return (), checkin (add_log ECommit w1))
    else if decide (x ∈ available_extensions (store w))
    then (Return (), checkin (add_log ECommit (set_store (add_extension x st1) w1)))
    else (Raise extension_error, checkin (add_log ERollback (set_store (store w) w1))).
Proof.
  unfold bootstrap, with_session, sess_begin, execute, checkout.
  unfold mbind, M_bind, emit, get_store, put_store, raise, mret, M_ret.
  rewrite Hidle. reduce_world.
  destruct (decide (s ∈ schemas (store w))); reduce_world;
    destruct (decide (x ∈ extensions (store w))); reduce_world;
    try destruct (decide (x ∈ available_extensions (store w))); reduce_world;
    reflexivity.
Qed.

(** The transaction commits when the extension is installed or can be, and
    rolls back otherwise. *)
Lemma bootstrap_cases :
  ((x ∈ extensions (store w) ∨ x ∈ available_extensions (store w))
   ∧ run (bootstrap s x) w = Return ()
   ∧ schemas (store (exec (bootstrap s x) w)) = {[ s ]} ∪ schemas (store w)
   ∧ extensions (store (exec (bootstrap s x) w)) = {[ x ]} ∪ extensions (store w)
   ∧ log (exec (bootstrap s x) w)
     = log w ++ [EConnect (url (engine w)); EBegin;
                 EExecute (create_schema_if_not_exists s);
                 EExecute (create_extension_if_not_exists x); ECommit])
  ∨ (((x ∉ extensions (store w)) ∧ (x ∉ available_extensions (store w)))
     ∧ run (bootstrap s x) w = Raise extension_error
     ∧ store (exec (bootstrap s x) w) = store w
     ∧ log (exec (bootstrap s x) w)
       = log w ++ [EConnect (url (engine w)); EBegin;
                   EExecute (create_schema_if_not_exists s);
                   EExecute (create_extension_if_not_exists x); ERollback]).
Proof.
  unfold run, exec. rewrite bootstrap_run. cbv zeta.
  destruct (decide (x ∈ extensions (store w))) as [He|He];
    [|destruct (decide (x ∈ available_extensions (store w))) as [Ha|Ha]];
    destruct (decide (s ∈ schemas (store w))) as [Hs|Hs]; reduce_world;
    rewrite <- ?app_assoc; cbn [app];
    first [ left; split; [auto|]; split; [reflexivity|];
            split; [absorb_singleton|]; split; [absorb_singleton|reflexivity]
          | right; repeat split; auto ].
Qed.

(** The tables and the list of installable extensions are not touched. *)
Lemma bootstrap_store_parts :
  available_extensions (store (exec (bootstrap s x) w)) = available_extensions (store w)
  ∧ pg_class (store (exec (bootstrap s x) w)) = pg_class (store w)
  ∧ pg_attribute (store (exec (bootstrap s x) w)) = pg_attribute (store w).
Proof.
  unfold run, exec. rewrite bootstrap_run. cbv zeta.
  destruct (decide (x ∈ extensions (store w))) as [He|He];
    [|destruct (decide (x ∈ available_extensions (store w))) as [Ha|Ha]];
    destruct (decide (s ∈ schemas (store w))) as [Hs|Hs]; reduce_world; done.
Qed.

(** With the schema and the extension in place the bootstrap returns and
    leaves the store as it is. *)
Lemma bootstrap_present :
  s ∈ schemas (store w) → x ∈ extensions (store w) →
  run (bootstrap s x) w = Return () ∧ store (exec (bootstrap s x) w) = store w.
Proof.
  intros Hs He.
  destruct bootstrap_store_parts as (Hav & Hpc & Hpa).
  destruct bootstrap_cases as [(_ & Hr & Hsch & Hext & _)|((Hne & _) & _)]; [|done].
  split; [done|]. apply Store_eq; [|  |done..].
  - rewrite Hsch. apply subseteq_union_1_L. by apply singleton_subseteq_l.
  - rewrite Hext. apply subseteq_union_1_L. by apply singleton_subseteq_l.
Qed.

End Bootstrap.

(** Run twice, the bootstrap leaves the store of the first run. *)
Lemma bootstrap_twice (s x : string) (w w1 : World) :
  idle (engine w) = 0%nat → idle (engine w1) = 0%nat →
  store w1 = store (exec (bootstrap s x) w) →
  store (exec (bootstrap s x) w1) = store (exec (bootstrap s x) w).
Proof.
  intros Hidle Hidle1 Hst. rewrite <- Hst.
  destruct (bootstrap_cases s x w Hidle)
    as [(_ & Hr & Hsch & Hext & _)|((Hne & Hna) & _ & Hsame & _)].
  - apply bootstrap_present;
      [done|rewrite Hst, Hsch|rewrite Hst, Hext]; apply elem_of_singleton_union.
  - destruct (bootstrap_cases s x w1 Hidle1) as [([He|Ha] & _)|(_ & _ & Hst' & _)]; [| |done].
    + rewrite Hst, Hsame in He. done.
    + rewrite Hst, Hsame in Ha. done.
Qed.

(** The constructor, for any schema and extension. *)
Section Constructor.
Variables (s x connection_string : string) (w : World).

Let w0 : World := set_engine {| url := connection_string; idle := 0 |} w.
Let w' : World := exec (Client_init_for s x connection_string) w.

Lemma Client_init_for_cases :
  ((x ∈ extensions (store w) ∨ x ∈ available_extensions (store w))
   ∧ run (Client_init_for s x connection_string) w = Return ()
   ∧ schemas (store w') = {[ s ]} ∪ schemas (store w)
   ∧ extensions (store w') = {[ x ]} ∪ extensions (store w)
   ∧ log w'
     = log w ++ EConnect connection_string
                :: [EBegin; EExecute (create_schema_if_not_exists s);
                    EExecute (create_extension_if_not_exists x)] ++ [ECommit])
  ∨ (((x ∉ extensions (store w)) ∧ (x ∉ available_extensions (store w)))
     ∧ run (Client_init_for s x connection_string) w = Raise extension_error
     ∧ store w' = store w
     ∧ log w'
       = log w ++ EConnect connection_string
                  :: [EBegin; EExecute (create_schema_if_not_exists s);
                      EExecute (create_extension_if_not_exists x)] ++ [ERollback]).
Proof. exact (bootstrap_cases s x w0 eq_refl). Qed.

Lemma Client_init_for_correct :
  (x ∈ extensions (store w) ∨ x ∈ available_extensions (store w) →
   run (Client_init_for s x connection_string) w = Return ()
   ∧ schemas (store w') = {[ s ]} ∪ schemas (store w)
   ∧ extensions (store w') = {[ x ]} ∪ extensions (store w)
   ∧ s ∈ schemas (store w')
   ∧ x ∈ extensions (store w')
   ∧ log w'
     = log w ++ EConnect connection_string
                :: [EBegin; EExecute (create_schema_if_not_exists s);
                    EExecute (create_extension_if_not_exists x)] ++ [ECommit])
  ∧ ((x ∉ extensions (store w)) ∧ (x ∉ available_extensions (store w)) →
     run (Client_init_for s x connection_string) w = Raise extension_error
     ∧ store w' = store w
     ∧ log w'
       = log w ++ EConnect connection_string
                  :: [EBegin; EExecute (create_schema_if_not_exists s);
                      EExecute (create_extension_if_not_exists x)] ++ [ERollback])
  ∧ available_extensions (store w') = available_extensions (store w)
  ∧ pg_class (store w') = pg_class (store w)
  ∧ pg_attribute (store w') = pg_attribute (store w)
  ∧ store (exec (Client_init_for s x connection_string) w') = store w'
  ∧ (s ∈ schemas (store w) → x ∈ extensions (store w) →
     run (Client_init_for s x connection_string) w = Return () ∧ store w' = store w)
  ∧ (∀ (A : Type) (operation : M A),
       (Client_init_for s x connection_string ≫= λ _, operation) w
       = (Raise extension_error, w')
       ∧ store w' = store w
       ∨ (Client_init_for s x connection_string ≫= λ _, operation) w = operation w'
         ∧ s ∈ schemas (store w')
         ∧ x ∈ extensions (store w')).
Proof.
  pose proof Client_init_for_cases as Hcases.
  assert (schemas (store w') = {[ s ]} ∪ schemas (store w) →
          extensions (store w') = {[ x ]} ∪ extensions (store w) →
          s ∈ schemas (store w') ∧ x ∈ extensions (store w')) as Hboth.
  { intros -> ->. split; apply elem_of_singleton_union. }
  split; [|split; [|split; [|split; [|split; [|split; [|split]]]]]].
  - intros Hcan.
    destruct Hcases as [(_ & Hr & Hsch & Hext & Hlog)|((Hne & Hna) & _)];
      [|by destruct Hcan].
    destruct (Hboth Hsch Hext). by repeat split.
  - intros [Hne Hna].
    destruct Hcases as [([He|Ha] & _)|(_ & Hr & Hst & Hlog)]; [done|done|].
    by repeat split.
  - by apply (bootstrap_store_parts s x w0).
  - by apply (bootstrap_store_parts s x w0).
  - by apply (bootstrap_store_parts s x w0).
  - by apply (bootstrap_twice s x w0).
  - intros Hs He. by apply (bootstrap_present s x w0).
  - intros A operation.
    destruct Hcases as [(_ & Hr & Hsch & Hext & _)|(_ & Hr & Hst & _)].
    + right. destruct (Hboth Hsch Hext). split; [|done].
      subst w'. unfold run, exec, mbind, M_bind in *.
      by destruct (Client_init_for s x connection_string w) as [[[]|e] w1].
    + left. split; [|done].
      subst w'. unfold run, exec, mbind, M_bind in *.
      destruct (Client_init_for s x connection_string w) as [[[]|e] w1]; [done|].
      cbn [fst snd] in *. congruence.
Qed.

End Constructor.

(** C6.  [Client.__init__] sends, on one connection and between one
    [begin] and its [commit] or [rollback], the two statements
    [create schema if not exists vecs] and
    [create extension if not exists vector].  When the store has the
    extension installed or can install it, the constructor returns, and the
    store it leaves has the schema and the extension, each added if it was
    missing and left alone if it was there.  When the store cannot install
    the extension, the constructor raises and the store is as before: the
    schema that the first statement made is not kept.  In both cases the
    tables are untouched, and running the constructor again leaves the
    store of the first run.  Whatever follows the construction runs only
    when it has returned, and then on a store that has both. *)
Theorem C6_bootstrap_single_transaction_idempotent
    (connection_string : string) (w : World) :
  ("vector" ∈ extensions (store w) ∨ "vector" ∈ available_extensions (store w) →
   run (Client_init connection_string) w = Return ()
   ∧ schemas (store (exec (Client_init connection_string) w))
     = {[ "vecs" ]} ∪ schemas (store w)
   ∧ extensions (store (exec (Client_init connection_string) w))
     = {[ "vector" ]} ∪ extensions (store w)
   ∧ "vecs" ∈ schemas (store (exec (Client_init connection_string) w))
   ∧ "vector" ∈ extensions (store (exec (Client_init connection_string) w))
   ∧ log (exec (Client_init connection_string) w)
     = log w ++ EConnect connection_string :: bootstrap_statements ++ [ECommit])
  ∧ (("vector" ∉ extensions (store w)) ∧ ("vector" ∉ available_extensions (store w)) →
     run (Client_init connection_string) w = Raise extension_error
     ∧ store (exec (Client_init connection_string) w) = store w
     ∧ log (exec (Client_init connection_string) w)
       = log w ++ EConnect connection_string :: bootstrap_statements ++ [ERollback])
  ∧ available_extensions (store (exec (Client_init connection_string) w))
    = available_extensions (store w)
  ∧ pg_class (store (exec (Client_init connection_string) w)) = pg_class (store w)
  ∧ pg_attribute (store (exec (Client_init connection_string) w)) = pg_attribute (store w)
  ∧ store (exec (Client_init connection_string) (exec (Client_init connection_string) w))
    = store (exec (Client_init connection_string) w)
  ∧ ("vecs" ∈ schemas (store w) → "vector" ∈ extensions (store w) →
     run (Client_init connection_string) w = Return ()
     ∧ store (exec (Client_init connection_string) w) = store w)
  ∧ (∀ (A : Type) (operation : M A),
       (Client_init connection_string ≫= λ _, operation) w
       = (Raise extension_error, exec (Client_init connection_string) w)
       ∧ store (exec (Client_init connection_string) w) = store w
       ∨ (Client_init connection_string ≫= λ _, operation) w
         = operation (exec (Client_init connection_string) w)
         ∧ "vecs" ∈ schemas (store (exec (Client_init connection_string) w))
         ∧ "vector" ∈ extensions (store (exec (Client_init connection_string) w))).
Proof. exact (Client_init_for_correct "vecs" "vector" connection_string w). Qed.

Example bootstrap_without_extension :
  run (Client_init "postgresql://db")
      (set_store (mk_store ∅ ∅ ∅ [] []) world0) = Raise extension_error
  ∧ schemas (store (exec (Client_init "postgresql://db")
                         (set_store (mk_store ∅ ∅ ∅ [] []) world0))) = ∅.
Proof. vm_compute. split; reflexivity. Qed.

(** ** C8: after [disconnect] *)

(** The result of a lookup-and-resolve depends on the store alone, not on
    the state of the pool. *)
Lemma get_or_create_collection_store_only nm dim ad w1 w2 :
  store w1 = store w2 →
  run (get_or_create_collection nm dim ad) w1 = run (get_or_create_collection nm dim ad) w2
  ∧ store (exec (get_or_create_collection nm dim ad) w1)
    = store (exec (get_or_create_collection nm dim ad) w2).
Proof.
  intros Hst. unfold run, exec. rewrite !get_or_create_collection_eq, Hst.
  unfold resolve. cbv zeta.
  unfold raise, mret, M_ret.
  case_decide; [cbn [fst snd]; by rewrite !store_after_select|].
  case_decide; [cbn [fst snd]; by rewrite !store_after_select|].
  destruct (head _); [|cbn [fst snd]; by rewrite !store_after_select].
  destruct (truthy _); [cbn [fst snd]; by rewrite !store_after_select|].
  rewrite !Collection_create_eq, !store_after_select, Hst.
  destruct (table_exists _ _); cbn [fst snd]; reduce_world;
    rewrite ?store_checkout; reduce_world; by rewrite ?store_after_select, ?Hst.
Qed.

Lemma get_collection_store_only nm w1 w2 :
  store w1 = store w2 → run (get_collection nm) w1 = run (get_collection nm) w2.
Proof. intros Hst. unfold run. by rewrite !get_collection_eq, Hst. Qed.

Lemma list_collections_store_only w1 w2 :
  store w1 = store w2 → run list_collections w1 = run list_collections w2.
Proof. intros Hst. unfold run. by rewrite !list_collections_eq, Hst. Qed.

(** C8 (amended).  [disconnect], which is all that [__exit__] runs, disposes
    of the pooled connections of the engine and changes nothing else: the
    engine keeps its url and the store is untouched, and the client records
    nowhere that it was disconnected.  An operation made afterwards is not
    refused: the engine opens a connection again and the operation gives the
    result it would have given without the disconnect. *)
Theorem C8_disconnect_disposes_pool_only
    (nm : string) (dim : option Z) (ad : option Adapter) (w : World) :
  run disconnect w = Return ()
  ∧ exec Client_exit w = exec disconnect w
  ∧ idle (engine (exec disconnect w)) = 0%nat
  ∧ url (engine (exec disconnect w)) = url (engine w)
  ∧ store (exec disconnect w) = store w
  ∧ log (exec disconnect w) = log w ++ [EDispose]
  ∧ run (get_collection nm) (exec disconnect w) = run (get_collection nm) w
  ∧ run (get_or_create_collection nm dim ad) (exec disconnect w)
    = run (get_or_create_collection nm dim ad) w
  ∧ store (exec (get_or_create_collection nm dim ad) (exec disconnect w))
    = store (exec (get_or_create_collection nm dim ad) w)
  ∧ run list_collections (exec disconnect w) = run list_collections w
  ∧ log (exec (get_collection nm) (exec disconnect w))
    = log w ++ [EDispose; EConnect (url (engine w)); EBegin;
                EExecute (select_collection nm); ERollback].
Proof.
  assert (store (exec disconnect w) = store w) as Hst by reflexivity.
  repeat split; try reflexivity.
  - by apply get_collection_store_only.
  - by apply get_or_create_collection_store_only.
  - by apply get_or_create_collection_store_only.
  - by apply list_collections_store_only.
  - unfold exec. rewrite get_collection_eq. unfold after_select, disconnect, dispose, checkout.
    reduce_world. by rewrite <- !app_assoc.
Qed.

(** C8 as stated fails: after [disconnect] the lookup of an existing
    collection returns its descriptor, on a connection opened anew, and
    raises nothing. *)
Lemma C8_counterexample :
  idle (engine (exec disconnect world_docs)) = 0%nat
  ∧ run (get_collection "docs") (exec disconnect world_docs)
    = Return (mk_collection "docs" 384 None)
  ∧ drop (length (log world_docs))
         (log (exec (get_collection "docs") (exec disconnect world_docs)))
    = [EDispose; EConnect "postgresql://db"; EBegin;
       EExecute (select_collection "docs"); ERollback].
Proof. vm_compute. repeat split; reflexivity. Qed.

(** The scenario of the specification, end to end. *)
Example end_to_end :
  run (get_or_create_collection "docs" (Some 384) None) fresh_world
  = Return (mk_collection "docs" 384 None)
  ∧ run (get_or_create_collection "docs" (Some 384) None) world_docs
    = Return (mk_collection "docs" 384 None)
  ∧ store (exec (get_or_create_collection "docs" (Some 384) None) world_docs)
    = store world_docs
  ∧ run (get_or_create_collection "docs" (Some 512) None) world_docs = Raise conflict_error
  ∧ existing_dimension "docs"
      (store (exec (get_or_create_collection "docs" (Some 512) None) world_docs)) = Some 384
  ∧ run list_collections (exec (delete_collection "docs") world_docs) = Return []
  ∧ run (delete_collection "nonexistent") world_docs = Raise not_found_error.
Proof. vm_compute. repeat split; reflexivity. Qed.

(** * Further properties of the client *)

(** ** The whole decision of [get_or_create_collection] *)

Lemma sources_all_equal nm dim ad st x :
  x ∈ reported_dimensions dim (existing_dimension nm st) ad →
  ¬ (1 < size (reported_dimensions dim (existing_dimension nm st) ad))%nat →
  ∀ v, Some v ∈ dimension_sources nm dim ad st → v = x.
Proof.
  intros Hx Hsz v Hv. destruct (decide (v = x)) as [|Hne]; [done|].
  destruct Hsz. apply (size_two_distinct _ v x); [|done|done].
  by apply elem_of_reported_dimensions.
Qed.

(** X1.  Every call of [get_or_create_collection] falls in one of four
    cases, decided after a lookup that only reads: no source is present and
    the configuration exception is raised; two sources differ and the
    mismatch exception is raised; all present sources agree on one value [x]
    and the width found is truthy, and the descriptor [(name, x, adapter)]
    is returned; or they agree on [x] and no truthy width was found, and
    that descriptor is handed to [Collection._create]. *)
Theorem X1_get_or_create_decision_table
    (nm : string) (dim : option Z) (ad : option Adapter) (w : World) :
  (get_or_create_collection nm dim ad w = (Raise configuration_error, after_select nm w)
   ∧ ∀ v, Some v ∉ dimension_sources nm dim ad (store w))
  ∨ (get_or_create_collection nm dim ad w = (Raise conflict_error, after_select nm w)
     ∧ ∃ a b, Some a ∈ dimension_sources nm dim ad (store w)
            ∧ Some b ∈ dimension_sources nm dim ad (store w) ∧ a ≠ b)
  ∨ ∃ x, Some x ∈ dimension_sources nm dim ad (store w)
       ∧ (∀ v, Some v ∈ dimension_sources nm dim ad (store w) → v = x)
       ∧ (truthy (existing_dimension nm (store w)) = true
          ∧ get_or_create_collection nm dim ad w
            = (Return (mk_collection nm x ad), after_select nm w)
          ∨ truthy (existing_dimension nm (store w)) = false
            ∧ get_or_create_collection nm dim ad w
              = Collection_create (mk_collection nm x ad) (after_select nm w)).
Proof.
  rewrite get_or_create_collection_eq. unfold resolve. cbv zeta.
  case_decide as Hz.
  { left. split; [done|]. intros v Hv%elem_of_reported_dimensions.
    apply size_empty_iff in Hz. rewrite Hz in Hv. by apply not_elem_of_empty in Hv. }
  case_decide as Hgt.
  { right. left. split; [done|]. by apply conflict_set_gt1. }
  right. right. destruct (head_elements_size_1 _ Hz Hgt) as (x & Hx & ->).
  exists x. split; [by apply elem_of_reported_dimensions|].
  split; [by apply sources_all_equal|].
  destruct (truthy (existing_dimension nm (store w))); [by left|by right].
Qed.

(** ** An existing table *)

Lemma agrees_no_conflict dim ad e :
  agrees dim e → agrees (ad ≫= exported_dimension) e →
  ¬ (1 < size (reported_dimensions dim (Some e) ad))%nat.
Proof.
  intros Hd Ha (a & b & Ha' & Hb' & Hab)%conflict_set_gt1. apply Hab.
  assert (∀ v, Some v ∈ [dim; Some e; ad ≫= exported_dimension] → v = e) as Hall.
  { intros v Hv. repeat (apply elem_of_cons in Hv as [Hv|Hv]).
    - destruct Hd; congruence.
    - congruence.
    - destruct Ha; congruence.
    - by apply not_elem_of_nil in Hv. }
  by rewrite (Hall a), (Hall b).
Qed.

Lemma disagrees_conflict dim ad e :
  ¬ (agrees dim e ∧ agrees (ad ≫= exported_dimension) e) →
  (1 < size (reported_dimensions dim (Some e) ad))%nat.
Proof.
  intros Hno. apply conflict_set_gt1. unfold agrees in Hno.
  destruct dim as [d|].
  - destruct (decide (d = e)) as [->|Hne].
    + destruct (ad ≫= exported_dimension) as [a|] eqn:Had.
      * destruct (decide (a = e)) as [->|Hne]; [destruct Hno; auto|].
        exists a, e. repeat split; [|by apply list_elem_of_further, list_elem_of_here|done].
        by do 2 apply list_elem_of_further; apply list_elem_of_here.
      * destruct Hno; auto.
    + exists d, e. repeat split; [apply list_elem_of_here| |done].
      apply list_elem_of_further, list_elem_of_here.
  - destruct (ad ≫= exported_dimension) as [a|] eqn:Had.
    + destruct (decide (a = e)) as [->|Hne]; [destruct Hno; auto|].
      exists a, e. repeat split; [|by apply list_elem_of_further, list_elem_of_here|done].
      by do 2 apply list_elem_of_further; apply list_elem_of_here.
    + destruct Hno; auto.
Qed.

(** X2.  When the lookup finds a table of width [e] other than 0,
    [get_or_create_collection] returns the descriptor of dimension [e]
    if every hint that is given (the caller's dimension, the adapter's
    exported dimension) equals [e], and raises the mismatch exception if one
    of them differs; in both cases only the lookup has run. *)
Theorem X2_existing_table_succeeds_iff_hints_agree
    (nm : string) (dim : option Z) (ad : option Adapter) (e : Z) (w : World) :
  existing_dimension nm (store w) = Some e →
  e ≠ 0 →
  (agrees dim e ∧ agrees (ad ≫= exported_dimension) e →
   get_or_create_collection nm dim ad w
   = (Return (mk_collection nm e ad), after_select nm w))
  ∧ (¬ (agrees dim e ∧ agrees (ad ≫= exported_dimension) e) →
     get_or_create_collection nm dim ad w = (Raise conflict_error, after_select nm w)).
Proof.
  intros Hex He. split.
  - intros [Hd Ha]. apply get_or_create_collection_reuse; [done|done|].
    by apply agrees_no_conflict.
  - intros Hno%disagrees_conflict.
    rewrite get_or_create_collection_eq, Hex. unfold resolve. cbv zeta.
    repeat case_decide; try lia. reflexivity.
Qed.

Lemma X2_existing_table_witness :
  (agrees (Some 384) 384 ∧ agrees (Some (mk_adapter None) ≫= exported_dimension) 384 →
   get_or_create_collection "docs" (Some 384) (Some (mk_adapter None)) world_docs
   = (Return (mk_collection "docs" 384 (Some (mk_adapter None))), after_select "docs" world_docs))
  ∧ (¬ (agrees (Some 384) 384 ∧ agrees (Some (mk_adapter None) ≫= exported_dimension) 384) →
     get_or_create_collection "docs" (Some 384) (Some (mk_adapter None)) world_docs
     = (Raise conflict_error, after_select "docs" world_docs)).
Proof.
  apply (X2_existing_table_succeeds_iff_hints_agree
           "docs" (Some 384) (Some (mk_adapter None)) 384 world_docs).
  - vm_compute. reflexivity.
  - lia.
Defined.

(** ** The create path and the legacy methods *)

(** X3.  For a name that the lookup does not find, a call of
    [get_or_create_collection] with a caller dimension [d] and no adapter
    does, after its lookup, what [create_collection(name, d)] does: both
    hand [Collection._create] the descriptor [(name, d)] without an
    adapter. *)
Theorem X3_new_name_is_legacy_create (nm : string) (d : Z) (w : World) :
  existing_dimension nm (store w) = None →
  get_or_create_collection nm (Some d) None w
  = create_collection nm d (after_select nm w).
Proof.
  intros Hex. rewrite get_or_create_collection_eq, Hex.
  rewrite (resolve_not_empty _ _ _ _ d (reported_first _ _ _)).
  case_decide as Hsz; [destruct (reported_agree d None); [by left|done]|].
  reflexivity.
Qed.

Lemma X3_new_name_witness :
  get_or_create_collection "docs" (Some 384) None fresh_world
  = create_collection "docs" 384 (after_select "docs" fresh_world).
Proof.
  apply (X3_new_name_is_legacy_create "docs" 384 fresh_world).
  vm_compute. reflexivity.
Defined.

(** X4.  For a name whose table the lookup finds with a width other than 0,
    [get_or_create_collection(name)] without any hint is
    [get_collection(name)]: the same descriptor, taken from the table, and
    the same final world. *)
Theorem X4_hintless_call_is_legacy_get (nm : string) (e : Z) (w : World) :
  existing_dimension nm (store w) = Some e →
  e ≠ 0 →
  get_or_create_collection nm None None w = get_collection nm w
  ∧ run (get_collection nm) w = Return (mk_collection nm e None).
Proof.
  intros Hex He.
  assert (get_collection nm w = (Return (mk_collection nm e None), after_select nm w)) as Hget.
  { rewrite get_collection_eq. f_equal.
    pose proof (elem_of_collection_query nm (store w)) as Hrows.
    unfold existing_dimension, fetchone in *.
    destruct (collection_query nm (store w)) as [|[n e'] rows]; [done|].
    simpl in Hex. injection Hex as ->.
    destruct (Hrows n e) as [[-> _] _]; [apply list_elem_of_here|]. reflexivity. }
  split; [|unfold run; by rewrite Hget].
  rewrite Hget. apply get_or_create_collection_reuse; [done|done|].
  apply agrees_no_conflict; by left.
Qed.

Lemma X4_hintless_call_witness :
  get_or_create_collection "docs" None None world_docs = get_collection "docs" world_docs
  ∧ run (get_collection "docs") world_docs = Return (mk_collection "docs" 384 None).
Proof.
  apply (X4_hintless_call_is_legacy_get "docs" 384 world_docs).
  - vm_compute. reflexivity.
  - lia.
Defined.

(** ** The client as a context manager *)

Lemma exit_after_eq {A : Type} (body : M A) w :
  exit_after body w = (run body w, exec disconnect (exec body w)).
Proof. unfold exit_after, run, exec. by destruct (body w). Qed.

Lemma Client_init_log connection_string w :
  ∃ evs, log (exec (Client_init connection_string) w) = log w ++ evs ∧ EDispose ∉ evs.
Proof.
  rewrite exec_Client_init.
  destruct (bootstrap_cases "vecs" "vector"
              (set_engine {| url := connection_string; idle := 0 |} w) eq_refl)
    as [(_ & _ & _ & _ & ->)|(_ & _ & _ & ->)]; reduce_world;
    eexists; (split; [reflexivity|]);
    intros Hin; repeat (apply elem_of_cons in Hin as [Hin|Hin]; [done|]);
    by apply not_elem_of_nil in Hin.
Qed.

(** X5.  In [with Client(connection_string) as vx: body], when the
    constructor returns the body runs on the world it left, the block gives
    the body's result whether that is a value or an exception, and on both
    paths [__exit__] has disposed of the pool without touching the store;
    when the constructor raises, the body does not run and nothing is
    disposed of. *)
Theorem X5_with_block_disposes_on_every_exit
    (A : Type) (connection_string : string) (body : M A) (w : World) :
  match run (Client_init connection_string) w with
  | Return _ =>
      run (with_client connection_string body) w
      = run body (exec (Client_init connection_string) w)
      ∧ exec (with_client connection_string body) w
        = exec disconnect (exec body (exec (Client_init connection_string) w))
      ∧ idle (engine (exec (with_client connection_string body) w)) = 0%nat
      ∧ store (exec (with_client connection_string body) w)
        = store (exec body (exec (Client_init connection_string) w))
  | Raise e =>
      with_client connection_string body w
      = (Raise e, exec (Client_init connection_string) w)
      ∧ EDispose ∉ drop (length (log w)) (log (exec (with_client connection_string body) w))
  end.
Proof.
  pose proof (Client_init_log connection_string w) as Hlog.
  unfold with_client, run, exec, mbind, M_bind in *.
  destruct (Client_init connection_string w) as [[[]|e] w1]; cbn [fst snd] in *.
  - unfold Client_enter, mret, M_ret. rewrite exit_after_eq. by cbn [fst snd].
  - split; [done|]. destruct Hlog as [evs [-> Hevs]].
    rewrite drop_app_length. exact Hevs.
Qed.

(** ** The lookup on a catalog with unique keys *)

Lemma NoDup_fmap_key {A K : Type} (key : A → K) (l : list A) a b :
  NoDup (key <$> l) → a ∈ l → b ∈ l → key a = key b → a = b.
Proof.
  induction l as [|c l IH]; intros Hnd Ha Hb Hk; [by apply not_elem_of_nil in Ha|].
  rewrite fmap_cons in Hnd. apply NoDup_cons in Hnd as [Hc Hnd].
  apply elem_of_cons in Ha as [->|Ha]; apply elem_of_cons in Hb as [->|Hb].
  - done.
  - destruct Hc. rewrite Hk. apply list_elem_of_fmap. by exists b.
  - destruct Hc. rewrite <- Hk. apply list_elem_of_fmap. by exists a.
  - by apply IH.
Qed.

Lemma physical_table_unique st nm d1 d2 :
  catalog_keys_unique st →
  physical_table st nm d1 → physical_table st nm d2 → d1 = d2.
Proof.
  intros [Hpc Hpa]
    (pc1 & pa1 & Hc1 & Ha1 & Ho1 & Hn1 & _ & Hv1 & _ & Hr1 & <-)
    (pc2 & pa2 & Hc2 & Ha2 & Ho2 & Hn2 & _ & Hv2 & _ & Hr2 & <-).
  assert (pc1 = pc2) as ->.
  { apply (NoDup_fmap_key _ _ _ _ Hpc Hc1 Hc2). by rewrite Hn1, Hn2, Hr1, Hr2. }
  assert (pa1 = pa2) as ->; [|done].
  apply (NoDup_fmap_key _ _ _ _ Hpa Ha1 Ha2). by rewrite <- Ho1, <- Ho2, Hv1, Hv2.
Qed.

(** X7.  On a catalog whose relations are unique by schema and name and
    whose columns are unique by relation and name, the lookup is exact: the
    width it finds for a name is [d] exactly when that table's [vec] column
    has width [d], so [get_collection] returns the descriptor of dimension
    [d] exactly then, and any two matching widths are the same. *)
Theorem X7_lookup_exact_on_unique_keys (nm : string) (d : Z) (w : World) :
  catalog_keys_unique (store w) →
  (existing_dimension nm (store w) = Some d ↔ physical_table (store w) nm d)
  ∧ (run (get_collection nm) w = Return (mk_collection nm d None)
     ↔ physical_table (store w) nm d)
  ∧ (∀ d', physical_table (store w) nm d → physical_table (store w) nm d' → d' = d).
Proof.
  intros Hu.
  assert (existing_dimension nm (store w) = Some d ↔ physical_table (store w) nm d) as Hiff.
  { split; [apply existing_dimension_Some|]. intros Hd.
    destruct (existing_dimension nm (store w)) as [d'|] eqn:Hex.
    - apply existing_dimension_Some in Hex. f_equal.
      by apply (physical_table_unique (store w) nm).
    - apply existing_dimension_None in Hex. destruct Hex. by exists d. }
  split; [done|]. split.
  - rewrite <- Hiff. unfold run. rewrite get_collection_eq. cbn [fst].
    pose proof (elem_of_collection_query nm (store w)) as Hrows.
    unfold existing_dimension, fetchone.
    destruct (collection_query nm (store w)) as [|[n d'] rows]; [done|].
    destruct (Hrows n d') as [[-> _] _]; [apply list_elem_of_here|]. simpl.
    split; [by intros [= ->]|by intros [= ->]].
  - intros d' H1 H2. by apply (physical_table_unique (store w) nm).
Qed.

Lemma X7_lookup_exact_witness :
  (existing_dimension "docs" (store world_docs) = Some 384
   ↔ physical_table (store world_docs) "docs" 384)
  ∧ (run (get_collection "docs") world_docs = Return (mk_collection "docs" 384 None)
     ↔ physical_table (store world_docs) "docs" 384)
  ∧ (∀ d', physical_table (store world_docs) "docs" 384 →
           physical_table (store world_docs) "docs" d' → d' = 384).
Proof.
  apply (X7_lookup_exact_on_unique_keys "docs" 384 world_docs).
  vm_compute. split; apply NoDup_singleton.
Defined.
